(** * Compliance-window computation of the warehouse-floor dashboard

    Shallow embedding of [addMonths] and [computeCompliance] (part_000,
    lines 107-129) together with the part of the ECMAScript [Date] and
    [Math] built-ins those two functions call.

    Numbers.  Every number the two functions handle is either NaN or an
    integral time value or month count, except the quotient handed to
    [Math.round], which is kept as an exact rational.  Time values are
    bounded by 8.64e15 < 2^53, so they are doubles without error, and so
    is their difference while it stays below 2^53 (a clock within some
    11,000 years of the epoch).  The divisor 2592000000 is a multiple of
    2^11, so a quotient that is not a half-integer stays 1/2592000000
    away from every half-integer, more than half an ulp below 2^22:
    rounding the double quotient and rounding the exact one agree.

    Host.  The local time zone and the parsing of date strings are
    supplied by the JavaScript host; they are fields of a [Host] record.
    The wall clock read by [new Date()] is an explicit argument. *)

From Stdlib Require Import ZArith QArith Qround Bool List String Ascii Lia.
From Stdlib Require Import DecimalString.
Import ListNotations.
Local Open Scope Z_scope.

(** ** ECMAScript time values (ECMA-262, "Time Values and Time Range") *)

Module ES.

Definition msPerDay : Z := 86400000.
Definition msPerHour : Z := 3600000.
Definition msPerMinute : Z := 60000.
Definition msPerSecond : Z := 1000.

Definition Day (t : Z) : Z := t / msPerDay.
Definition TimeWithinDay (t : Z) : Z := t mod msPerDay.

Definition DaysInYear (y : Z) : Z :=
  if negb (y mod 4 =? 0) then 365
  else if negb (y mod 100 =? 0) then 366
  else if negb (y mod 400 =? 0) then 365
  else 366.

Definition DayFromYear (y : Z) : Z :=
  365 * (y - 1970) + (y - 1969) / 4 - (y - 1901) / 100 + (y - 1601) / 400.

Definition TimeFromYear (y : Z) : Z := msPerDay * DayFromYear y.

(** "The largest integer y such that TimeFromYear(y) <= t", computed from
    the mean Gregorian year of 146097/400 days and corrected by one year
    either way ([YearFromTime_spec] and [YearFromTime_unique] below). *)
Definition YearFromTime (t : Z) : Z :=
  let d := Day t in
  let y := 1970 + (d * 400) / 146097 in
  if d <? DayFromYear y then y - 1
  else if DayFromYear (y + 1) <=? d then y + 1
  else y.

Definition InLeapYear (t : Z) : Z :=
  if DaysInYear (YearFromTime t) =? 366 then 1 else 0.

Definition DayWithinYear (t : Z) : Z := Day t - DayFromYear (YearFromTime t).

Definition MonthFromTime (t : Z) : Z :=
  let d := DayWithinYear t in
  let L := InLeapYear t in
  if d <? 31 then 0
  else if d <? 59 + L then 1
  else if d <? 90 + L then 2
  else if d <? 120 + L then 3
  else if d <? 151 + L then 4
  else if d <? 181 + L then 5
  else if d <? 212 + L then 6
  else if d <? 243 + L then 7
  else if d <? 273 + L then 8
  else if d <? 304 + L then 9
  else if d <? 334 + L then 10
  else 11.

Definition DateFromTime (t : Z) : Z :=
  let d := DayWithinYear t in
  let L := InLeapYear t in
  match MonthFromTime t with
  | 0 => d + 1
  | 1 => d - 30
  | 2 => d - 58 - L
  | 3 => d - 89 - L
  | 4 => d - 119 - L
  | 5 => d - 150 - L
  | 6 => d - 180 - L
  | 7 => d - 211 - L
  | 8 => d - 242 - L
  | 9 => d - 272 - L
  | 10 => d - 303 - L
  | _ => d - 333 - L
  end.

Definition HourFromTime (t : Z) : Z := (t / msPerHour) mod 24.
Definition MinFromTime (t : Z) : Z := (t / msPerMinute) mod 60.
Definition SecFromTime (t : Z) : Z := (t / msPerSecond) mod 60.
Definition msFromTime (t : Z) : Z := t mod msPerSecond.

(** Day-within-year on which month [mn] (0..11) starts; [L] is 1 in a
    leap year.  These are the thresholds of [MonthFromTime]. *)
Definition DayFromMonth (mn L : Z) : Z :=
  match mn with
  | 0 => 0
  | 1 => 31
  | 2 => 59 + L
  | 3 => 90 + L
  | 4 => 120 + L
  | 5 => 151 + L
  | 6 => 181 + L
  | 7 => 212 + L
  | 8 => 243 + L
  | 9 => 273 + L
  | 10 => 304 + L
  | _ => 334 + L
  end.

Definition LeapOfYear (y : Z) : Z := if DaysInYear y =? 366 then 1 else 0.

(** MakeDay(year, month, date): the day number of the first of month
    [month mod 12] in year [year + floor(month / 12)], plus [date - 1].
    [MakeDay_first_fields] shows the time value chosen has the fields
    the standard asks for. *)
Definition MakeDay (year month date : Z) : Z :=
  let ym := year + month / 12 in
  let mn := month mod 12 in
  DayFromYear ym + DayFromMonth mn (LeapOfYear ym) + date - 1.

Definition MakeDate (day time : Z) : Z := day * msPerDay + time.

End ES.

(** ** JavaScript numbers, completions *)

Inductive number : Type :=
| Num (z : Z)
| NaN.

Inductive Error : Type :=
| RangeError.

Inductive completion (A : Type) : Type :=
| Normal (a : A)
| Throw (e : Error).
Arguments Normal {A} a.
Arguments Throw {A} e.

Definition bind {A B : Type} (c : completion A) (k : A -> completion B)
  : completion B :=
  match c with
  | Normal a => k a
  | Throw e => Throw e
  end.

Notation "x <- c ;; k" := (bind c (fun x => k))
  (at level 61, c at next level, right associativity).

(** TimeClip: a time beyond 8.64e15 ms from the epoch is NaN. *)
Definition TimeClip (t : Z) : number :=
  if 8640000000000000 <? Z.abs t then NaN else Num t.

(** [a - b] on numbers. *)
Definition num_sub (a b : number) : number :=
  match a, b with
  | Num x, Num y => Num (x - y)
  | _, _ => NaN
  end.

(** [a / b] on numbers, for a non-zero divisor; [None] is NaN. *)
Definition num_div (a b : number) : option Q :=
  match a, b with
  | Num x, Num y => Some (inject_Z x / inject_Z y)%Q
  | _, _ => None
  end.

(** [a < b] on numbers: false as soon as one side is NaN. *)
Definition num_lt (a b : number) : bool :=
  match a, b with
  | Num x, Num y => x <? y
  | _, _ => false
  end.

(** Math.round: the nearest integer, a tie going towards +infinity. *)
Definition Math_round (x : option Q) : number :=
  match x with
  | Some q => Num (Qfloor (q + (1 # 2)))
  | None => NaN
  end.

(** Math.max of two numbers: NaN if either is NaN. *)
Definition Math_max (a b : number) : number :=
  match a, b with
  | Num x, Num y => Num (Z.max x y)
  | _, _ => NaN
  end.

(** ** Calendar dates, as the specification words month addition *)

Module Civil.

(** A calendar date; [month] counts from 0 as [Date.getMonth] does. *)
Record date : Type := mkdate { year : Z; month : Z; day : Z }.

Definition DaysInMonth (y mn : Z) : Z :=
  match mn with
  | 1 => 28 + ES.LeapOfYear y
  | 3 | 5 | 8 | 10 => 30
  | _ => 31
  end.

Definition valid (c : date) : Prop :=
  0 <= month c <= 11 /\ 1 <= day c <= DaysInMonth (year c) (month c).

(** The month that lies [k] months after January of year [y]. *)
Definition monthAt (y k : Z) : Z * Z := (y + k / 12, k mod 12).

(** "Advance the month field by the duration, preserving day-of-month
    where valid, rolling into the following month when the day does not
    exist in the target month."  A day of at most 31 overshoots the
    shortest month by at most 3, so one roll is enough. *)
Definition plusMonths (c : date) (n : Z) : date :=
  let (y, m) := monthAt (year c) (month c + n) in
  if day c <=? DaysInMonth y m then mkdate y m (day c)
  else
    let (y', m') := monthAt (year c) (month c + n + 1) in
    mkdate y' m' (day c - DaysInMonth y m).

(** The calendar date a time value falls on. *)
Definition of_time (t : Z) : date :=
  mkdate (ES.YearFromTime t) (ES.MonthFromTime t) (ES.DateFromTime t).

(** UTC midnight of a calendar date, as a time value. *)
Definition to_time (c : date) : Z :=
  ES.MakeDate (ES.MakeDay (year c) (month c) (day c)) 0.

End Civil.

(** ** The host, and the Date object *)

Record Host : Type := mkHost {
  (** LocalTZA(t, isUTC): the local zone's offset from UTC in ms. *)
  LocalTZA : Z -> bool -> Z;
  (** Date.parse: the time value of a date string, or NaN. *)
  Date_parse : string -> number
}.

Definition LocalTime (h : Host) (t : Z) : Z := t + LocalTZA h t true.
Definition UTC (h : Host) (t : Z) : Z := t - LocalTZA h t false.

(** A Date object is its time value. *)
Definition Date : Type := number.

(** [new Date(s)] for a string [s]. *)
Definition Date_of_string (h : Host) (s : string) : Date :=
  match Date_parse h s with
  | Num t => TimeClip t
  | NaN => NaN
  end.

(** [new Date(d)] for a Date [d]: a fresh object with the same time. *)
Definition Date_of_Date (d : Date) : Date := d.

(** [new Date()]: the wall clock, in ms since the epoch. *)
Definition Date_now (clock : Z) : Date := Num clock.

Definition getTime (d : Date) : number := d.

Definition getMonth (h : Host) (d : Date) : number :=
  match d with
  | Num t => Num (ES.MonthFromTime (LocalTime h t))
  | NaN => NaN
  end.

Definition num_add (a b : number) : number :=
  match a, b with
  | Num x, Num y => Num (x + y)
  | _, _ => NaN
  end.

(** The local time [setMonth] assembles from local time [t] and the new
    month [mo]: same year, day of month and time of day. *)
Definition newDate (t mo : Z) : Z :=
  let dt := ES.DateFromTime t in
  ES.MakeDate (ES.MakeDay (ES.YearFromTime t) mo dt) (ES.TimeWithinDay t).

(** [d.setMonth(m)]: the Date after the call. *)
Definition setMonth (h : Host) (d : Date) (m : number) : Date :=
  match d, m with
  | Num t0, Num mo => TimeClip (UTC h (newDate (LocalTime h t0) mo))
  | _, _ => NaN
  end.

(** [a < b] on Dates compares their time values. *)
Definition Date_lt (a b : Date) : bool := num_lt (getTime a) (getTime b).

Local Open Scope string_scope.
Local Open Scope Z_scope.

(** The [n] low decimal digits of [z], written before [acc]. *)
Fixpoint digits (n : nat) (z : Z) (acc : string) : string :=
  match n with
  | O => acc
  | S k =>
      digits k (z / 10)
        (String (ascii_of_nat (48 + Z.to_nat (z mod 10))) acc)
  end.

Definition pad (n : nat) (z : Z) : string := digits n z EmptyString.

(** [d.toISOString()]: YYYY-MM-DDTHH:mm:ss.sssZ in UTC, the year with a
    sign and six digits outside 0..9999; RangeError on an invalid Date. *)
Definition toISOString (d : Date) : completion string :=
  match d with
  | NaN => Throw RangeError
  | Num t =>
      let y := ES.YearFromTime t in
      let ys :=
        if (0 <=? y) && (y <=? 9999) then pad 4 y
        else (if y <? 0 then "-" else "+") ++ pad 6 (Z.abs y) in
      Normal
        (ys ++ "-" ++ pad 2 (ES.MonthFromTime t + 1)
            ++ "-" ++ pad 2 (ES.DateFromTime t)
            ++ "T" ++ pad 2 (ES.HourFromTime t)
            ++ ":" ++ pad 2 (ES.MinFromTime t)
            ++ ":" ++ pad 2 (ES.SecFromTime t)
            ++ "." ++ pad 3 (ES.msFromTime t) ++ "Z")
  end.

(** *** Sample hosts: a parser for the standard date-time string format *)

Definition digit (c : ascii) : option Z :=
  let n := Z.of_nat (nat_of_ascii c) in
  if (48 <=? n) && (n <=? 57) then Some (n - 48) else None.

Fixpoint decimal (cs : list ascii) (acc : Z) : option Z :=
  match cs with
  | [] => Some acc
  | c :: cs' =>
      match digit c with
      | Some v => decimal cs' (10 * acc + v)
      | None => None
      end
  end.

(** UTC midnight of a date-only form.  MM runs from 01 to 12 and DD from
    01 to 31; a day past the end of the month runs on into the next
    month through [MakeDay], which is how V8 reads 2022-02-30 (engines
    differ on such dates; SpiderMonkey answers NaN). *)
Definition utcMidnight (y m d : option Z) : number :=
  match y, m, d with
  | Some y, Some m, Some d =>
      if (1 <=? m) && (m <=? 12) && (1 <=? d) && (d <=? 31)
      then Num (ES.MakeDate (ES.MakeDay y (m - 1) d) 0)
      else NaN
  | _, _, _ => NaN
  end.

(** The date-only forms of the ECMAScript date-time string format, YYYY,
    YYYY-MM and YYYY-MM-DD, read as UTC midnight. *)
Definition parseISODate (s : string) : number :=
  match list_ascii_of_string s with
  | [a; b; c; d] => utcMidnight (decimal [a; b; c; d] 0) (Some 1) (Some 1)
  | [a; b; c; d; "-"%char; e; f] =>
      utcMidnight (decimal [a; b; c; d] 0) (decimal [e; f] 0) (Some 1)
  | [a; b; c; d; "-"%char; e; f; "-"%char; g; i] =>
      utcMidnight (decimal [a; b; c; d] 0) (decimal [e; f] 0)
        (decimal [g; i] 0)
  | _ => NaN
  end.

(** The full UTC date-time form, which is the form [toISOString] writes. *)
Module ISO.

Definition andThen {A B : Type} (o : option A) (k : A -> option B)
  : option B :=
  match o with
  | Some a => k a
  | None => None
  end.

(** [n] decimal digits at the head of the input. *)
Definition field (n : nat) (l : list ascii) : option (Z * list ascii) :=
  if Nat.eqb (List.length (firstn n l)) n then
    andThen (decimal (firstn n l) 0) (fun v => Some (v, skipn n l))
  else None.

(** One given character at the head of the input. *)
Definition sep (c : ascii) (l : list ascii) : option (list ascii) :=
  match l with
  | x :: r => if Ascii.eqb x c then Some r else None
  | [] => None
  end.

(** A year: four digits, or a sign and six digits; -000000 is not one. *)
Definition year (l : list ascii) : option (Z * list ascii) :=
  match l with
  | c :: r =>
      if Ascii.eqb c "+" then field 6 r
      else if Ascii.eqb c "-" then
        andThen (field 6 r)
          (fun vr => if fst vr =? 0 then None else Some (- fst vr, snd vr))
      else field 4 l
  | [] => None
  end.

(** YYYY-MM-DDTHH:mm:ss.sssZ, with the year possibly expanded. *)
Definition dateTime (l : list ascii) : option Z :=
  andThen (year l) (fun yl =>
  andThen (sep "-" (snd yl)) (fun l =>
  andThen (field 2 l) (fun ml =>
  andThen (sep "-" (snd ml)) (fun l =>
  andThen (field 2 l) (fun dl =>
  andThen (sep "T" (snd dl)) (fun l =>
  andThen (field 2 l) (fun hl =>
  andThen (sep ":" (snd hl)) (fun l =>
  andThen (field 2 l) (fun nl =>
  andThen (sep ":" (snd nl)) (fun l =>
  andThen (field 2 l) (fun sl =>
  andThen (sep "." (snd sl)) (fun l =>
  andThen (field 3 l) (fun fl =>
  andThen (sep "Z" (snd fl)) (fun l =>
  match l with
  | [] =>
      let y := fst yl in
      let mo := fst ml in
      let d := fst dl in
      if (1 <=? mo) && (mo <=? 12) && (1 <=? d)
         && (d <=? Civil.DaysInMonth y (mo - 1))
         && (fst hl <=? 23) && (fst nl <=? 59) && (fst sl <=? 59)
      then
        Some (ES.MakeDate (ES.MakeDay y (mo - 1) d)
                (fst hl * ES.msPerHour + fst nl * ES.msPerMinute
                 + fst sl * ES.msPerSecond + fst fl))
      else None
  | _ :: _ => None
  end)))))))))))))).

End ISO.

(** The parser of the sample hosts: the full UTC date-time form on a
    real calendar day, and the date-only forms.  The shorter time forms
    and the zone offsets of the standard format, and every form outside
    it (which the standard leaves to the implementation), are not read:
    this parser answers NaN there, and no statement depends on what a
    host makes of such a string. *)
Definition parseISO (s : string) : number :=
  match ISO.dateTime (list_ascii_of_string s) with
  | Some tv => Num tv
  | None => parseISODate s
  end.

Definition utcHost : Host := mkHost (fun _ _ => 0) parseISO.

(** The same parser in a zone at a fixed offset of [off] ms from UTC. *)
Definition fixedHost (off : Z) : Host := mkHost (fun _ _ => off) parseISO.

(** A host whose zone is at the fixed offset [off] from UTC. *)
Definition fixedOffset (h : Host) (off : Z) : Prop :=
  forall x b, LocalTZA h x b = off.

(** A host that reads the full UTC date-time form as the standard
    prescribes, for the times a Date can hold. *)
Definition readsUTCDateTime (h : Host) : Prop :=
  forall s tv,
    ISO.dateTime (list_ascii_of_string s) = Some tv ->
    Z.abs tv <= 8640000000000000 ->
    Date_parse h s = Num tv.

(** ** Compliance types (part_000, lines 88-105) *)

(** [ProjectType] and [CodeCycle] are unions of string literals: at run
    time the two fields hold strings, compared with [===]. *)
Record Project : Type := mkProject {
  id : string;
  label : string;
  unitId : option string;
  projectType : string;
  cycle : string;
  approvalDate : string
}.

Definition isProjectType (s : string) : Prop := s = "housing" \/ s = "modular".
Definition isCodeCycle (s : string) : Prop := s = "pre2026" \/ s = "post2026".

Inductive Status : Type :=
| valid
| expiring
| expired
| compliant.

(** [Project & { expiresAt?, status, monthsLeft? }]: [proj] holds the
    fields spread from the project. *)
Record ProjectWithDerived : Type := mkDerived {
  proj : Project;
  expiresAt : option string;
  status : Status;
  monthsLeft : option number
}.

(** ** addMonths and computeCompliance (part_000, lines 107-129) *)

Definition addMonths (h : Host) (d : Date) (months : Z) : Date :=
  let dt := Date_of_Date d in
  let dt := setMonth h dt (num_add (getMonth h dt) (Num months)) in
  dt.

Definition msPer30Days : Z := 1000 * 60 * 60 * 24 * 30.

Definition computeCompliance (h : Host) (clock : Z) (p : Project)
  : completion ProjectWithDerived :=
  if String.eqb (cycle p) "post2026" then
    Normal (mkDerived p None compliant None)
  else
    let base := Date_of_string h (approvalDate p) in
    let months := if String.eqb (projectType p) "housing" then 36 else 15 in
    let expires := addMonths h base months in
    let now := Date_now clock in
    let monthsLeft :=
      Math_max (Num 0)
        (Math_round
           (num_div (num_sub (getTime expires) (getTime now))
              (Num msPer30Days))) in
    let status :=
      if Date_lt expires now then expired
      else if num_lt monthsLeft (Num 6) then expiring
      else valid in
    iso <- toISOString expires ;;
    Normal (mkDerived p (Some iso) status (Some monthsLeft)).

(** The display tier of a status, as [badgeTone] colours it: green for
    valid and compliant, amber for expiring, red for expired. *)
Definition risk (s : Status) : Z :=
  match s with
  | valid | compliant => 0
  | expiring => 1
  | expired => 2
  end.

(** The derived part of a result, without the fields carried through. *)
Definition derived (r : completion ProjectWithDerived)
  : completion (option string * Status * option number) :=
  x <- r ;; Normal (expiresAt x, status x, monthsLeft x).

(** The three projects of the seed list (part_000, lines 358-362). *)
Definition p22 : Project :=
  mkProject "p22" "2022 Plan" None "housing" "pre2026" "2022-03-15".
Definition p25 : Project :=
  mkProject "p25" "2025 Plan" None "modular" "pre2026" "2025-01-10".
Definition p27 : Project :=
  mkProject "p27" "2027 Plan" None "housing" "post2026" "2027-02-01".

(** UTC midnight of a calendar day, as a clock reading. *)
Definition midnight (y m d : Z) : Z := ES.MakeDate (ES.MakeDay y (m - 1) d) 0.

(** ** Vocabulary of the specification *)

Module Spec.

(** The policy table: the grandfathering window in months. *)
Definition duration (ty : string) : option Z :=
  if String.eqb ty "housing" then Some 36
  else if String.eqb ty "modular" then Some 15
  else None.

(** [k] is [a / b] rounded to the nearest integer, a half going up. *)
Definition rounds_to (a b k : Z) : Prop :=
  (2 * k - 1) * b <= 2 * a < (2 * k + 1) * b.

(** The risk ordering valid < expiring < expired. *)
Definition risk_le (s1 s2 : Status) : Prop := risk s1 <= risk s2.

End Spec.

(** The expiry date [computeCompliance] works out for a project on a
    limited window (its local [expires]). *)
Definition expiry (h : Host) (p : Project) : Date :=
  addMonths h (Date_of_string h (approvalDate p))
    (if String.eqb (projectType p) "housing" then 36 else 15).

(** The project as the two tests of [computeCompliance] read it. *)
Definition asRead (p : Project) : Project :=
  mkProject (id p) (label p) (unitId p)
    (if String.eqb (projectType p) "housing" then "housing" else "modular")
    (if String.eqb (cycle p) "post2026" then "post2026" else "pre2026")
    (approvalDate p).

Definition days (n : Z) : Z := n * ES.msPerDay.

(** ** Presentation of a status (part_000, lines 131-148) *)

Definition badgeTone (s : Status) : string :=
  match s with
  | valid | compliant => "bg-emerald-600 text-white"
  | expiring => "bg-amber-600 text-white"
  | expired => "bg-rose-600 text-white"
  end.

(** Number::toString on an integer below 10^21 in magnitude, or NaN. *)
Definition Number_toString (n : number) : string :=
  match n with
  | Num z => NilZero.string_of_int (Z.to_int z)
  | NaN => "NaN"
  end.

(** An optional number inside a template literal. *)
Definition template_number (v : option number) : string :=
  match v with
  | Some n => Number_toString n
  | None => "undefined"
  end.

(** The dash of the first label is U+2014, here in UTF-8. *)
Definition statusLabel (p : ProjectWithDerived) : string :=
  if String.eqb (cycle (proj p)) "post2026" then "CBSC 2026+ — Compliant"
  else
    match status p with
    | expired => "Expired"
    | expiring => "Expires in " ++ template_number (monthsLeft p) ++ "m"
    | _ => "Valid"
    end.

Definition Status_eqb (a b : Status) : bool :=
  match a, b with
  | valid, valid | expiring, expiring | expired, expired
  | compliant, compliant => true
  | _, _ => false
  end.

(** The three counters of [compCounts]. *)
Module Counts.
Record t : Type := mk { valid : nat; expiring : nat; expired : nat }.
End Counts.

(** ** Stations and crew (part_000, lines 49-86) *)

Module Station.
Inductive id : Type :=
| rec | cut | frame | plumb | elec | hvac | insul | int | ext | qa | dock.

Definition eqb (a b : id) : bool :=
  match a, b with
  | rec, rec | cut, cut | frame, frame | plumb, plumb | elec, elec
  | hvac, hvac | insul, insul | int, int | ext, ext | qa, qa
  | dock, dock => true
  | _, _ => false
  end.
End Station.

Definition StationId : Type := Station.id.

(** The ids and names of [DEFAULT_STATIONS], in order (icons left out). *)
Definition DEFAULT_STATIONS : list (StationId * string) :=
  [(Station.rec, "Receiving"); (Station.cut, "Cutting / Prep");
   (Station.frame, "Framing"); (Station.plumb, "Plumbing");
   (Station.elec, "Electrical"); (Station.hvac, "HVAC");
   (Station.insul, "Insulation"); (Station.int, "Interior Finish");
   (Station.ext, "Exterior Finish"); (Station.qa, "QA / Inspect");
   (Station.dock, "Shipping Dock")].

Record StationState : Type := mkStationState {
  power : bool;
  lux : Z;
  fan : Z;
  locked : bool;
  alert : bool;
  crew : Z;
  oee : Z;
  wip : Z
}.

(** [Partial<StationState>]: a field that is [None] is absent. *)
Module Partial.
Record StationState : Type := mk {
  power : option bool;
  lux : option Z;
  fan : option Z;
  locked : option bool;
  alert : option bool;
  crew : option Z;
  oee : option Z;
  wip : option Z
}.
End Partial.

Definition orElse {A : Type} (o : option A) (a : A) : A :=
  match o with
  | Some v => v
  | None => a
  end.

(** [{ ...s, ...upd }]. *)
Definition spread (s : StationState) (upd : Partial.StationState)
  : StationState :=
  mkStationState
    (orElse (Partial.power upd) (power s))
    (orElse (Partial.lux upd) (lux s))
    (orElse (Partial.fan upd) (fan s))
    (orElse (Partial.locked upd) (locked s))
    (orElse (Partial.alert upd) (alert s))
    (orElse (Partial.crew upd) (crew s))
    (orElse (Partial.oee upd) (oee s))
    (orElse (Partial.wip upd) (wip s)).

(** [Record<StationId, StationState>] with every key present, as
    [seedState] builds it and every update keeps it. *)
Definition Stations : Type := StationId -> StationState.

(** Two station records with the same value under every key. *)
Definition sameState (a b : Stations) : Prop := forall k, a k = b k.

(** A boolean as 0 or 1, for counting. *)
Definition b2z (b : bool) : Z := if b then 1 else 0.

(** [Object.values(stations)]: the keys are in the order of
    [DEFAULT_STATIONS], in which [seedState] inserts them. *)
Definition values (stations : Stations) : list StationState :=
  map (fun s => stations (fst s)) DEFAULT_STATIONS.

Inductive ClockType : Type :=
| clock_in
| clock_out.

Module ClockEvent.
Record ev : Type := mk { t : Z; type : ClockType }.
End ClockEvent.

Module Employee.
Record t : Type := mk {
  id : string;
  name : string;
  role : string;
  onFloor : bool;
  stationId : option StationId;
  clockEvents : list ClockEvent.ev
}.
End Employee.

Module Totals.
Record t : Type := mk { powered : nat; crew : nat; wip : Z }.
End Totals.

(** The fields of the clock-in dialog and of the add-project dialog. *)
Record ClockModal : Type := mkClockModal {
  clockOpen : bool;
  clockName : string;
  clockStation : StationId
}.

Record ProjectModal : Type := mkProjectModal {
  projOpen : bool;
  projLabel : string;
  projApproval : string;
  projType : string;
  projCycle : string
}.

Inductive VlmState : Type :=
| IDLE
| MOVING
| ERROR.

Record Vlm : Type := mkVlm {
  state : VlmState;
  bay : Z;
  shelf : Z;
  queue : Z;
  doorLocked : bool
}.

(** ** Small pure helpers (part_000, lines 222-226) *)

Definition tileColor (active warn : bool) : string :=
  if warn then "bg-amber-500/30 ring-2 ring-amber-400"
  else if active then "bg-amber-500/20"
  else "bg-zinc-800/70".

(** ** The compliance part of the component (part_000, lines 357-365
    and 478-488) *)

Module ADXSplash.

(** [projects.map(computeCompliance)]: the calls are made in order, the
    call for the project at index [i] reads the clock as [clock i], and
    the first one to throw ends the whole map. *)
Fixpoint deriveFrom (h : Host) (clock : nat -> Z) (i : nat)
  (projects : list Project) : completion (list ProjectWithDerived) :=
  match projects with
  | [] => Normal []
  | p :: rest =>
      r <- computeCompliance h (clock i) p ;;
      rs <- deriveFrom h clock (S i) rest ;;
      Normal (r :: rs)
  end.

Definition derived (h : Host) (clock : nat -> Z) (projects : list Project)
  : completion (list ProjectWithDerived) :=
  deriveFrom h clock 0 projects.

(** [projects[0]?.id || ""]. *)
Definition initialActiveProjectId (projects : list Project) : string :=
  match projects with
  | p :: _ => if String.eqb (id p) EmptyString then EmptyString else id p
  | [] => EmptyString
  end.

(** [derived.find((p) => p.id === activeProjectId) || null]. *)
Definition activeProject (d : list ProjectWithDerived)
  (activeProjectId : string) : option ProjectWithDerived :=
  find (fun p => String.eqb (id (proj p)) activeProjectId) d.

Definition compCounts (d : list ProjectWithDerived) : Counts.t :=
  Counts.mk
    (List.length (filter (fun x => Status_eqb (status x) valid
                              || Status_eqb (status x) compliant) d))
    (List.length (filter (fun x => Status_eqb (status x) expiring) d))
    (List.length (filter (fun x => Status_eqb (status x) expired) d)).

Definition alerts (d : list ProjectWithDerived) : list ProjectWithDerived :=
  filter (fun x => Status_eqb (status x) expiring
                   || Status_eqb (status x) expired) d.

(** *** Stations, scenes and totals (lines 150-167 and 425-459) *)

Definition indexOf (k : StationId) : Z :=
  match k with
  | Station.rec => 0 | Station.cut => 1 | Station.frame => 2
  | Station.plumb => 3 | Station.elec => 4 | Station.hvac => 5
  | Station.insul => 6 | Station.int => 7 | Station.ext => 8
  | Station.qa => 9 | Station.dock => 10
  end.

Definition at_ (l : list Z) (i : Z) : Z := nth (Z.to_nat i) l 0.

Definition seedState : Stations := fun k =>
  let i := indexOf k in
  mkStationState
    (negb (i =? 0))
    (at_ [0; 40; 60; 75; 90] (Z.rem i 5))
    (at_ [0; 30; 50; 70; 90] (Z.rem (i + 2) 5))
    false
    false
    (Z.rem i 3 + 2)
    (80 - Z.rem i 4 * 5)
    (Z.rem i 5 + 1).

Definition totals (stations : Stations) (employees : list Employee.t)
  : Totals.t :=
  let list := values stations in
  Totals.mk
    (List.length (filter (fun s => power s) list))
    (List.length (filter (fun e => Employee.onFloor e) employees))
    (fold_left (fun a b => a + wip b) list 0).

Definition applyToAll (upd : Partial.StationState) (old : Stations)
  : Stations :=
  fun k => spread (old k) upd.

(** The stations after the scene, and whether [pause()] was called. *)
Definition triggerScene (which : string) (stations : Stations)
  : Stations * bool :=
  if String.eqb which "start" then
    (applyToAll (Partial.mk (Some true) (Some 70) (Some 40) None (Some false)
                   None None None) stations, false)
  else if String.eqb which "lunch" then
    (applyToAll (Partial.mk None (Some 30) (Some 20) None None
                   None None None) stations, false)
  else if String.eqb which "evac" then
    (applyToAll (Partial.mk (Some false) (Some 0) (Some 0) None (Some true)
                   None None None) stations, true)
  else if String.eqb which "alloff" then
    (applyToAll (Partial.mk (Some false) (Some 0) (Some 0) None (Some false)
                   None None None) stations, true)
  else (stations, false).

Definition updateStation (id : StationId) (data : Partial.StationState)
  (s : Stations) : Stations :=
  fun k => if Station.eqb k id then spread (s id) data else s k.

(** *** Crew (lines 379-392 and 490) *)

(** [rid] is the id drawn from [Math.random()], [now] is [Date.now()]. *)
Definition clockIn (rid : string) (now : Z) (m : ClockModal)
  (e : list Employee.t) : list Employee.t * ClockModal :=
  ((e ++ [Employee.mk rid
            (if String.eqb (clockName m) EmptyString
             then "Worker " ++ rid else clockName m)
            "Crew" true (Some (clockStation m))
            [ClockEvent.mk now clock_in]])%list,
   mkClockModal false EmptyString (clockStation m)).

(** [now i] is [Date.now()] as read for the employee at index [i]. *)
Fixpoint clockOutFrom (now : nat -> Z) (i : nat) (e : list Employee.t)
  : list Employee.t :=
  match e with
  | [] => []
  | x :: rest =>
      Employee.mk (Employee.id x) (Employee.name x) (Employee.role x)
        false None
        (Employee.clockEvents x ++ [ClockEvent.mk (now i) clock_out])%list
      :: clockOutFrom now (S i) rest
  end.

Definition clockOutAll (now : nat -> Z) (e : list Employee.t)
  : list Employee.t :=
  clockOutFrom now 0 e.

Definition onPost (id : StationId) (e : Employee.t) : bool :=
  Employee.onFloor e
  && match Employee.stationId e with
     | Some s => Station.eqb s id
     | None => false
     end.

Definition crewForStation (id : StationId) (employees : list Employee.t)
  : nat :=
  List.length (filter (onPost id) employees).

(** The crew the component starts with (lines 352-355). *)
Definition seedEmployees : list Employee.t :=
  [Employee.mk "1001" "Alex" "Assembler" true (Some Station.frame) [];
   Employee.mk "1002" "Bri" "QC" true (Some Station.qa) []].

(** The crew lists the two handlers can produce from the seed. *)
Inductive crewReachable : list Employee.t -> Prop :=
| crew_seed : crewReachable seedEmployees
| crew_clockIn (rid : string) (now : Z) (m : ClockModal)
    (e : list Employee.t) :
    crewReachable e -> crewReachable (fst (clockIn rid now m e))
| crew_clockOutAll (now : nat -> Z) (e : list Employee.t) :
    crewReachable e -> crewReachable (clockOutAll now e).

(** *** Adding a project (lines 394-401) *)

Definition addProject (rid : string) (m : ProjectModal)
  (projects : list Project) : list Project * ProjectModal :=
  if String.eqb (projLabel m) EmptyString
     || String.eqb (projApproval m) EmptyString
  then (projects, m)
  else
    ((projects ++ [mkProject rid (projLabel m) None (projType m)
                     (projCycle m) (projApproval m)])%list,
     mkProjectModal false EmptyString EmptyString (projType m) (projCycle m)).

(** *** The lift mock and the playlist (lines 403-420) *)

(** The update the 5-second timer applies to the lift state. *)
Definition vlmTick (v : Vlm) : Vlm :=
  mkVlm
    (match state v with MOVING => IDLE | _ => MOVING end)
    (Z.rem (bay v) 24 + 1)
    (Z.rem (shelf v) 8 + 1)
    (queue v)
    (doorLocked v).

Definition vlmSeed : Vlm := mkVlm IDLE 12 4 3 true.

Definition playlist : list string :=
  ["/media/track1.mp3"; "/media/track2.mp3"].

Definition next (i : Z) : Z := Z.rem (i + 1) (Z.of_nat (List.length playlist)).


(** *** The caption of a project row (lines 264, 634 and 662) *)

(** The string handed to [new Date] and [formatMMMYYYY] when the row
    shows "Expires ...", or [None] when it shows "CBSC 2026+": the test
    is [cycle === "pre2026" && expiresAt], and an empty string is not
    truthy. *)
Definition expiryShown (p : ProjectWithDerived) : option string :=
  if String.eqb (cycle (proj p)) "pre2026" then
    match expiresAt p with
    | Some iso => if String.eqb iso EmptyString then None else Some iso
    | None => None
    end
  else None.

End ADXSplash.

(** ** The progress bar (components/ui/progress.tsx) *)

Module Progress.

(** A JavaScript number as a point of the extended rational line, or
    NaN; the sign of zero is not kept. *)
Inductive num : Type :=
| NegInf
| Fin (q : Q)
| PosInf
| NotNum.

Definition leb (a b : num) : bool :=
  match a, b with
  | NotNum, _ | _, NotNum => false
  | NegInf, _ => true
  | _, PosInf => true
  | Fin x, Fin y => Qle_bool x y
  | _, _ => false
  end.

Definition Math_max (a b : num) : num :=
  match a, b with
  | NotNum, _ | _, NotNum => NotNum
  | _, _ => if leb a b then b else a
  end.

Definition Math_min (a b : num) : num :=
  match a, b with
  | NotNum, _ | _, NotNum => NotNum
  | _, _ => if leb a b then a else b
  end.

(** [pct] of the component; an absent [value] defaults to 0. *)
Definition pct (value : option num) : num :=
  let value := match value with Some v => v | None => Fin 0 end in
  Math_min (Fin 100) (Math_max (Fin 0) value).

End Progress.

(** * Facts about the time-value arithmetic *)

Module ESFacts.
Import ES.

Ltac floors := unfold DayFromYear, Day, msPerDay in *; Z.div_mod_to_equations; lia.

Lemma DaysInYear_cases (y : Z) : DaysInYear y = 365 \/ DaysInYear y = 366.
Proof.
  unfold DaysInYear.
  destruct (y mod 4 =? 0), (y mod 100 =? 0), (y mod 400 =? 0); simpl; auto.
Qed.

(** A year is as long as the distance between two new-year days. *)
Lemma DayFromYear_succ (y : Z) : DayFromYear (y + 1) = DayFromYear y + DaysInYear y.
Proof.
  unfold DaysInYear.
  destruct (Z.eqb_spec (y mod 4) 0), (Z.eqb_spec (y mod 100) 0),
    (Z.eqb_spec (y mod 400) 0); simpl; floors.
Qed.

Lemma DayFromYear_lt (y1 y2 : Z) : y1 < y2 -> DayFromYear y1 < DayFromYear y2.
Proof. intros H. floors. Qed.

(** [YearFromTime t] is a year whose new-year day is not after [t] while
    the next one is. *)
Lemma YearFromTime_spec (t : Z) :
  DayFromYear (YearFromTime t) <= Day t < DayFromYear (YearFromTime t + 1).
Proof.
  unfold YearFromTime.
  set (d := Day t). set (y := 1970 + d * 400 / 146097).
  assert (Hlo : DayFromYear (y - 1) <= d) by (subst y; floors).
  assert (Hhi : d < DayFromYear (y + 1 + 1)) by (subst y; floors).
  destruct (Z.ltb_spec d (DayFromYear y)).
  - replace (y - 1 + 1) with y by lia. lia.
  - destruct (Z.leb_spec (DayFromYear (y + 1)) d); lia.
Qed.

(** ... and it is the only such year, hence the largest with
    [TimeFromYear y <= t]. *)
Lemma YearFromTime_unique (t y : Z) :
  DayFromYear y <= Day t < DayFromYear (y + 1) -> YearFromTime t = y.
Proof.
  intros [Hlo Hhi]. pose proof (YearFromTime_spec t) as [Slo Shi].
  destruct (Z.lt_trichotomy (YearFromTime t) y) as [Hlt | [Heq | Hgt]]; auto.
  - assert (DayFromYear (YearFromTime t + 1) <= DayFromYear y).
    { destruct (Z.eq_dec (YearFromTime t + 1) y) as [-> | Hne]; [lia |].
      apply Z.lt_le_incl, DayFromYear_lt. lia. }
    lia.
  - assert (DayFromYear (y + 1) <= DayFromYear (YearFromTime t)).
    { destruct (Z.eq_dec (y + 1) (YearFromTime t)) as [-> | Hne]; [lia |].
      apply Z.lt_le_incl, DayFromYear_lt. lia. }
    lia.
Qed.

Lemma YearFromTime_largest (t y : Z) :
  TimeFromYear y <= t <-> y <= YearFromTime t.
Proof.
  pose proof (YearFromTime_spec t) as [Slo Shi].
  assert (Hday : forall z, msPerDay * z <= t <-> z <= Day t).
  { intros z. unfold Day, msPerDay. split; intros; Z.div_mod_to_equations; lia. }
  unfold TimeFromYear. rewrite Hday. split; intros H.
  - destruct (Z.le_gt_cases y (YearFromTime t)) as [|Hgt]; auto.
    assert (DayFromYear (YearFromTime t + 1) <= DayFromYear y).
    { destruct (Z.eq_dec (YearFromTime t + 1) y) as [-> | Hne]; [lia |].
      apply Z.lt_le_incl, DayFromYear_lt. lia. }
    lia.
  - destruct (Z.eq_dec y (YearFromTime t)) as [-> | Hne]; [lia |].
    assert (DayFromYear y < DayFromYear (YearFromTime t))
      by (apply DayFromYear_lt; lia).
    lia.
Qed.

Lemma LeapOfYear_cases (y : Z) :
  (LeapOfYear y = 0 /\ DaysInYear y = 365) \/ (LeapOfYear y = 1 /\ DaysInYear y = 366).
Proof.
  unfold LeapOfYear. destruct (DaysInYear_cases y) as [-> | ->]; simpl; auto.
Qed.

Lemma InLeapYear_LeapOfYear (t : Z) : InLeapYear t = LeapOfYear (YearFromTime t).
Proof. reflexivity. Qed.

Lemma DayWithinYear_range (t : Z) :
  0 <= DayWithinYear t < 365 + InLeapYear t.
Proof.
  unfold DayWithinYear. rewrite InLeapYear_LeapOfYear.
  pose proof (YearFromTime_spec t) as [Slo Shi].
  rewrite DayFromYear_succ in Shi.
  destruct (LeapOfYear_cases (YearFromTime t)) as [[-> E] | [-> E]]; lia.
Qed.

Lemma Day_MakeDate (d tw : Z) :
  0 <= tw < msPerDay -> Day (MakeDate d tw) = d /\ TimeWithinDay (MakeDate d tw) = tw.
Proof.
  unfold Day, TimeWithinDay, MakeDate, msPerDay. intros H.
  split; Z.div_mod_to_equations; lia.
Qed.

Lemma TimeWithinDay_range (t : Z) : 0 <= TimeWithinDay t < msPerDay.
Proof. unfold TimeWithinDay, msPerDay. Z.div_mod_to_equations; lia. Qed.

Lemma MakeDate_Day (t : Z) : MakeDate (Day t) (TimeWithinDay t) = t.
Proof.
  unfold MakeDate, Day, TimeWithinDay, msPerDay. Z.div_mod_to_equations; lia.
Qed.

Ltac month_cases mn H :=
  assert (mn = 0 \/ mn = 1 \/ mn = 2 \/ mn = 3 \/ mn = 4 \/ mn = 5 \/ mn = 6
          \/ mn = 7 \/ mn = 8 \/ mn = 9 \/ mn = 10 \/ mn = 11) as H by lia;
  repeat (destruct H as [H | H]); subst mn.

Ltac split_ltb :=
  repeat match goal with
         | |- context [?a <? ?b] => destruct (Z.ltb_spec a b); try lia
         end.

(** The calendar fields of a time value built from a real calendar day. *)
Lemma fields_of_day (t y mn d : Z) :
  0 <= mn <= 11 -> 1 <= d <= Civil.DaysInMonth y mn ->
  Day t = DayFromYear y + DayFromMonth mn (LeapOfYear y) + d - 1 ->
  YearFromTime t = y /\ MonthFromTime t = mn /\ DateFromTime t = d.
Proof.
  intros Hmn Hd Ht.
  assert (Hy : YearFromTime t = y).
  { apply YearFromTime_unique. rewrite DayFromYear_succ, Ht.
    destruct (LeapOfYear_cases y) as [[El Ey] | [El Ey]];
      rewrite Ey; unfold Civil.DaysInMonth in Hd; rewrite El in *;
      month_cases mn Hc; simpl in *; lia. }
  assert (Hm : MonthFromTime t = mn).
  { unfold MonthFromTime, DayWithinYear. rewrite InLeapYear_LeapOfYear, Hy, Ht.
    unfold Civil.DaysInMonth in Hd.
    destruct (LeapOfYear_cases y) as [[El Ey] | [El Ey]]; rewrite El in *;
      month_cases mn Hc; simpl in *; split_ltb. }
  split; [exact Hy | split; [exact Hm |]].
  unfold DateFromTime. rewrite Hm. unfold DayWithinYear.
  rewrite InLeapYear_LeapOfYear, Hy, Ht.
  clear Hm. month_cases mn Hc; cbv beta iota delta [DayFromMonth]; lia.
Qed.

(** Every time value falls on a real calendar day. *)
Lemma of_time_valid (t : Z) : Civil.valid (Civil.of_time t).
Proof.
  unfold Civil.valid, Civil.of_time, Civil.DaysInMonth; simpl.
  pose proof (DayWithinYear_range t) as R.
  unfold DateFromTime, MonthFromTime.
  rewrite InLeapYear_LeapOfYear in *.
  destruct (LeapOfYear_cases (YearFromTime t)) as [[El Ey] | [El Ey]];
    rewrite El in *; split_ltb; simpl; lia.
Qed.

End ESFacts.

(** * Month addition *)

Module MonthFacts.
Import ES ESFacts.

Lemma monthAt_succ (y k : Z) :
  k mod 12 = 11 /\ Civil.monthAt y (k + 1) = (y + k / 12 + 1, 0)
  \/ k mod 12 < 11 /\ Civil.monthAt y (k + 1) = (y + k / 12, k mod 12 + 1).
Proof.
  unfold Civil.monthAt.
  destruct (Z.eq_dec (k mod 12) 11) as [E | N]; [left | right]; split; auto.
  - f_equal; Z.div_mod_to_equations; lia.
  - Z.div_mod_to_equations; lia.
  - f_equal; Z.div_mod_to_equations; lia.
Qed.

(** The first of the next month comes a month's length after the first
    of this one. *)
Lemma MakeDay_next_month (y m d : Z) :
  MakeDay y (m + 1) d =
  MakeDay y m d + Civil.DaysInMonth (y + m / 12) (m mod 12).
Proof.
  unfold MakeDay.
  assert (Hr : 0 <= m mod 12 < 12) by (apply Z.mod_pos_bound; lia).
  destruct (monthAt_succ y m) as [[E H] | [E H]];
    unfold Civil.monthAt in H; injection H as Hy Hm.
  - replace ((m + 1) / 12) with (m / 12 + 1) by lia.
    rewrite Hm, E, Z.add_assoc, DayFromYear_succ.
    unfold Civil.DaysInMonth.
    destruct (LeapOfYear_cases (y + m / 12)) as [[El Ey] | [El Ey]];
      rewrite El, Ey; cbv beta iota delta [DayFromMonth]; lia.
  - replace ((m + 1) / 12) with (m / 12) by lia. rewrite Hm.
    remember (m mod 12) as mn eqn:Emn.
    remember (LeapOfYear (y + m / 12)) as L eqn:EL.
    unfold Civil.DaysInMonth. rewrite <- EL. clear Emn Hm.
    month_cases mn Hc; try lia;
      match goal with
      | |- context [DayFromMonth (?a + 1) _] =>
          let v := eval compute in (a + 1) in change (a + 1) with v
      end;
      cbv beta iota delta [DayFromMonth]; lia.
Qed.

Lemma DaysInMonth_range (y mn : Z) : 28 <= Civil.DaysInMonth y mn <= 31.
Proof.
  unfold Civil.DaysInMonth.
  destruct (LeapOfYear_cases y) as [[El _] | [El _]]; rewrite El.
  all: destruct mn as [| p | p]; try lia.
  all: do 4 (try destruct p as [p | p |]); simpl; lia.
Qed.

(** MakeDay picks a day with the fields the standard asks for. *)
Lemma MakeDay_fields (y m d tw : Z) :
  1 <= d <= Civil.DaysInMonth (y + m / 12) (m mod 12) ->
  0 <= tw < msPerDay ->
  Civil.of_time (MakeDate (MakeDay y m d) tw)
  = Civil.mkdate (y + m / 12) (m mod 12) d.
Proof.
  intros Hd Htw. unfold Civil.of_time.
  assert (Hr : 0 <= m mod 12 < 12) by (apply Z.mod_pos_bound; lia).
  destruct (fields_of_day (MakeDate (MakeDay y m d) tw)
              (y + m / 12) (m mod 12) d) as (-> & -> & ->);
    try lia; auto.
  destruct (Day_MakeDate (MakeDay y m d) tw Htw) as [-> _]. reflexivity.
Qed.

Lemma MakeDay_first_fields (y m : Z) :
  Civil.of_time (MakeDate (MakeDay y m 1) 0)
  = Civil.mkdate (y + m / 12) (m mod 12) 1.
Proof.
  apply MakeDay_fields; [| unfold msPerDay; lia].
  assert (Hr : 0 <= m mod 12 < 12) by (apply Z.mod_pos_bound; lia).
  pose proof (DaysInMonth_range (y + m / 12) (m mod 12)). lia.
Qed.

(** Setting the month field and letting the day overflow is calendar
    month addition with a roll into the following month. *)
Lemma MakeDay_plusMonths (y mo n d tw : Z) :
  1 <= d <= 31 -> 0 <= tw < msPerDay ->
  Civil.of_time (MakeDate (MakeDay y (mo + n) d) tw)
  = Civil.plusMonths (Civil.mkdate y mo d) n.
Proof.
  intros Hd Htw. unfold Civil.plusMonths. cbn [Civil.year Civil.month Civil.day].
  unfold Civil.monthAt at 1.
  set (k := mo + n).
  pose proof (DaysInMonth_range (y + k / 12) (k mod 12)) as R1.
  destruct (Z.leb_spec d (Civil.DaysInMonth (y + k / 12) (k mod 12))) as [Hle | Hgt].
  - apply MakeDay_fields; auto. lia.
  - unfold Civil.monthAt.
    pose proof (DaysInMonth_range (y + (k + 1) / 12) ((k + 1) mod 12)) as R2.
    rewrite <- (MakeDay_fields y (k + 1) _ tw) by (auto; lia).
    rewrite MakeDay_next_month. do 2 f_equal. unfold MakeDay. lia.
Qed.

(** Every day number is the MakeDay of its own calendar fields. *)
Lemma Day_as_MakeDay (t : Z) :
  Day t = MakeDay (YearFromTime t) (MonthFromTime t) (DateFromTime t).
Proof.
  pose proof (of_time_valid t) as [Hm _]. cbn in Hm.
  unfold MakeDay.
  replace (MonthFromTime t / 12) with 0 by (Z.div_mod_to_equations; lia).
  replace (MonthFromTime t mod 12) with (MonthFromTime t)
    by (Z.div_mod_to_equations; lia).
  rewrite Z.add_0_r. unfold DateFromTime.
  rewrite <- InLeapYear_LeapOfYear.
  remember (MonthFromTime t) as mn eqn:Emn. clear Emn. unfold DayWithinYear.
  month_cases mn Hc; cbv beta iota delta [DayFromMonth]; lia.
Qed.

End MonthFacts.

(** * The evaluator *)

Module MonthLength.
Import ES ESFacts MonthFacts.

Lemma three_years (y : Z) : 1095 <= DayFromYear (y + 3) - DayFromYear y <= 1096.
Proof. floors. Qed.

Lemma two_years (y : Z) : 730 <= DayFromYear (y + 2) - DayFromYear y <= 731.
Proof. floors. Qed.

Ltac literal_months :=
  repeat match goal with
         | |- context [DayFromMonth (?a + ?b) _] =>
             let v := eval compute in (a + b) in change (a + b) with v
         | |- context [DayFromMonth (?a - ?b) _] =>
             let v := eval compute in (a - b) in change (a - b) with v
         end;
  cbv beta iota delta [DayFromMonth].

Ltac leap_cases y :=
  let El := fresh "El" in
  destruct (LeapOfYear_cases y) as [[El _] | [El _]]; rewrite El; clear El.

(** Thirty-six or fifteen calendar months are always longer than as many
    periods of thirty days. *)
Lemma newDate_longer (t n : Z) :
  n = 36 \/ n = 15 ->
  days (30 * n) < newDate t (MonthFromTime t + n) - t.
Proof.
  intros Hn. unfold newDate, days.
  rewrite <- (MakeDate_Day t) at 5. unfold MakeDate.
  rewrite (Day_as_MakeDay t).
  pose proof (of_time_valid t) as [Hm _]. cbn in Hm.
  remember (MonthFromTime t) as M eqn:EM. clear EM.
  remember (YearFromTime t) as Y eqn:EY. clear EY.
  remember (DateFromTime t) as D eqn:ED. clear ED.
  assert (Hgap : 30 * n < MakeDay Y (M + n) D - MakeDay Y M D).
  { unfold MakeDay.
    replace (M / 12) with 0 by (Z.div_mod_to_equations; lia).
    replace (M mod 12) with M by (Z.div_mod_to_equations; lia).
    rewrite Z.add_0_r.
    destruct Hn as [-> | ->].
    - replace ((M + 36) / 12) with 3 by (Z.div_mod_to_equations; lia).
      replace ((M + 36) mod 12) with M by (Z.div_mod_to_equations; lia).
      pose proof (three_years Y).
      leap_cases Y; leap_cases (Y + 3); month_cases M Hc; literal_months; lia.
    - destruct (Z.le_gt_cases M 8).
      + replace ((M + 15) / 12) with 1 by (Z.div_mod_to_equations; lia).
        replace ((M + 15) mod 12) with (M + 3) by (Z.div_mod_to_equations; lia).
        pose proof (DayFromYear_succ Y). pose proof (DaysInYear_cases Y).
        leap_cases Y; leap_cases (Y + 1);
          month_cases M Hc; try lia; literal_months; lia.
      + replace ((M + 15) / 12) with 2 by (Z.div_mod_to_equations; lia).
        replace ((M + 15) mod 12) with (M - 9) by (Z.div_mod_to_equations; lia).
        pose proof (two_years Y).
        leap_cases Y; leap_cases (Y + 2);
          month_cases M Hc; try lia; literal_months; lia. }
  unfold msPerDay. lia.
Qed.

End MonthLength.

Module Evaluator.
Import ES ESFacts MonthFacts MonthLength.

Lemma msPer30Days_days : msPer30Days = days 30.
Proof. reflexivity. Qed.

(** [Math.round (a / b)] for a positive divisor, in integers. *)
Lemma Math_round_div (a b : Z) :
  0 < b ->
  Math_round (num_div (Num a) (Num b)) = Num ((2 * a + b) / (2 * b)).
Proof.
  intros Hb. destruct b as [| q | q]; try lia.
  unfold Math_round, num_div, Qdiv, Qinv, Qmult, Qplus, Qfloor, inject_Z.
  cbn [Qnum Qden]. f_equal. f_equal; lia.
Qed.

Lemma round_half_up (a b : Z) :
  0 < b -> Spec.rounds_to a b ((2 * a + b) / (2 * b)).
Proof.
  intros Hb. unfold Spec.rounds_to.
  pose proof (Z.div_mod (2 * a + b) (2 * b)) as E.
  pose proof (Z.mod_pos_bound (2 * a + b) (2 * b)) as R.
  nia.
Qed.

Lemma rounds_to_unique (a b k k' : Z) :
  0 < b -> Spec.rounds_to a b k -> Spec.rounds_to a b k' -> k = k'.
Proof. unfold Spec.rounds_to. intros Hb H1 H2. nia. Qed.

(** The months left, as [computeCompliance] computes them from a valid
    expiry [e] and the clock. *)
Lemma monthsLeft_value (e clock : Z) :
  Math_max (Num 0)
    (Math_round (num_div (num_sub (getTime (Num e)) (getTime (Date_now clock)))
                   (Num msPer30Days)))
  = Num (Z.max 0 ((2 * (e - clock) + msPer30Days) / (2 * msPer30Days))).
Proof.
  unfold getTime, Date_now, num_sub.
  rewrite Math_round_div by reflexivity. reflexivity.
Qed.

Lemma toISOString_Num (e : Z) : exists iso, toISOString (Num e) = Normal iso.
Proof. unfold toISOString. eexists. reflexivity. Qed.

(** *** The two branches of [computeCompliance] *)

Lemma computeCompliance_post (h : Host) (clock : Z) (p : Project) :
  cycle p = "post2026"%string ->
  computeCompliance h clock p = Normal (mkDerived p None compliant None).
Proof.
  intros Hc. unfold computeCompliance. rewrite Hc. reflexivity.
Qed.

Lemma computeCompliance_window (h : Host) (clock : Z) (p : Project) (e : Z) :
  cycle p <> "post2026"%string ->
  expiry h p = Num e ->
  computeCompliance h clock p =
  (iso <- toISOString (Num e) ;;
   let m := Z.max 0 ((2 * (e - clock) + msPer30Days) / (2 * msPer30Days)) in
   Normal (mkDerived p (Some iso)
             (if e <? clock then expired
              else if m <? 6 then expiring else valid)
             (Some (Num m)))).
Proof.
  intros Hc He. unfold computeCompliance.
  apply String.eqb_neq in Hc. rewrite Hc.
  change (addMonths h (Date_of_string h (approvalDate p))
            (if String.eqb (projectType p) "housing" then 36 else 15))
    with (expiry h p).
  rewrite He, monthsLeft_value. reflexivity.
Qed.

Lemma computeCompliance_invalid (h : Host) (clock : Z) (p : Project) :
  cycle p <> "post2026"%string ->
  expiry h p = NaN ->
  computeCompliance h clock p = Throw RangeError.
Proof.
  intros Hc He. unfold computeCompliance.
  apply String.eqb_neq in Hc. rewrite Hc.
  change (addMonths h (Date_of_string h (approvalDate p))
            (if String.eqb (projectType p) "housing" then 36 else 15))
    with (expiry h p).
  rewrite He. reflexivity.
Qed.

Lemma addMonths_NaN (h : Host) (n : Z) : addMonths h NaN n = NaN.
Proof. reflexivity. Qed.

Lemma addMonths_Num (h : Host) (t n : Z) :
  addMonths h (Num t) n
  = TimeClip (UTC h (newDate (LocalTime h t)
                       (MonthFromTime (LocalTime h t) + n))).
Proof. reflexivity. Qed.

Lemma TimeClip_Num (t e : Z) : TimeClip t = Num e -> t = e.
Proof.
  unfold TimeClip. destruct (8640000000000000 <? Z.abs t); congruence.
Qed.

End Evaluator.

(** * Zones at a fixed offset on or east of UTC *)

Module FixedZone.
Import ES ESFacts MonthFacts MonthLength Evaluator.

Lemma valid_month (c : Civil.date) :
  Civil.valid c -> Civil.month c / 12 = 0 /\ Civil.month c mod 12 = Civil.month c.
Proof.
  intros [Hm _]. split; Z.div_mod_to_equations; lia.
Qed.

(** UTC midnight of a calendar day, moved east by less than a day, is an
    instant of that same day. *)
Lemma to_time_local (c : Civil.date) (off : Z) :
  Civil.valid c -> 0 <= off < msPerDay ->
  Civil.of_time (Civil.to_time c + off) = c
  /\ TimeWithinDay (Civil.to_time c + off) = off.
Proof.
  intros Hv Hoff. destruct (valid_month c Hv) as [Hdiv Hmod].
  destruct c as [y m d]. destruct Hv as [Hm Hd].
  cbn [Civil.year Civil.month Civil.day] in *.
  replace (Civil.to_time (Civil.mkdate y m d) + off)
    with (MakeDate (MakeDay y m d) off)
    by (unfold Civil.to_time, MakeDate; cbn [Civil.year Civil.month Civil.day];
        lia).
  split.
  - pose proof (MakeDay_fields y m d off) as H.
    rewrite Hdiv, Hmod, Z.add_0_r in H. apply H; assumption.
  - apply Day_MakeDate, Hoff.
Qed.

Lemma midnight_range : 0 <= 0 < msPerDay.
Proof. unfold msPerDay. lia. Qed.

Lemma day_at_most_31 (c : Civil.date) :
  Civil.valid c -> 1 <= Civil.day c <= 31.
Proof.
  intros [_ Hd].
  pose proof (DaysInMonth_range (Civil.year c) (Civil.month c)). lia.
Qed.

(** Month addition leads from a calendar day to a calendar day. *)
Lemma plusMonths_valid (c : Civil.date) (n : Z) :
  Civil.valid c -> Civil.valid (Civil.plusMonths c n).
Proof.
  intros Hv. pose proof (day_at_most_31 c Hv) as Hd. destruct c as [y m d].
  rewrite <- (MakeDay_plusMonths y m n d 0 Hd midnight_range).
  apply of_time_valid.
Qed.

Lemma to_time_plusMonths (c : Civil.date) (n : Z) :
  Civil.valid c ->
  Civil.to_time (Civil.plusMonths c n)
  = MakeDate (MakeDay (Civil.year c) (Civil.month c + n) (Civil.day c)) 0.
Proof.
  intros Hv. pose proof (day_at_most_31 c Hv) as Hd. destruct c as [y m d].
  cbn [Civil.year Civil.month Civil.day] in *.
  rewrite <- (MakeDay_plusMonths y m n d 0 Hd midnight_range).
  unfold Civil.to_time, Civil.of_time. cbn [Civil.year Civil.month Civil.day].
  rewrite <- Day_as_MakeDay.
  rewrite (proj1 (Day_MakeDate (MakeDay y (m + n) d) 0 midnight_range)).
  reflexivity.
Qed.

Lemma LocalTime_fixed (h : Host) (off x : Z) :
  fixedOffset h off -> LocalTime h x = x + off.
Proof. intros Hfix. unfold LocalTime. f_equal. apply Hfix. Qed.

Lemma UTC_fixed (h : Host) (off x : Z) :
  fixedOffset h off -> UTC h x = x - off.
Proof. intros Hfix. unfold UTC. f_equal. apply Hfix. Qed.

(** In such a zone, adding months to UTC midnight of a calendar day gives
    UTC midnight of the day that many calendar months on. *)
Lemma addMonths_fixed_east (h : Host) (off : Z) (c : Civil.date) (n : Z) :
  fixedOffset h off -> 0 <= off < msPerDay -> Civil.valid c ->
  addMonths h (Num (Civil.to_time c)) n
  = TimeClip (Civil.to_time (Civil.plusMonths c n)).
Proof.
  intros Hfix Hoff Hv. rewrite addMonths_Num. f_equal.
  rewrite (UTC_fixed h off _ Hfix), (LocalTime_fixed h off _ Hfix).
  destruct (to_time_local c off Hv Hoff) as [Hc Htw].
  pose proof (f_equal Civil.year Hc) as Hy.
  pose proof (f_equal Civil.month Hc) as Hm.
  pose proof (f_equal Civil.day Hc) as Hd.
  cbn [Civil.of_time Civil.year Civil.month Civil.day] in Hy, Hm, Hd.
  remember (Civil.to_time c + off) as lt eqn:Elt.
  unfold newDate. rewrite Hy, Hm, Hd, Htw, (to_time_plusMonths c n Hv).
  unfold MakeDate. lia.
Qed.

Lemma expiry_fixed_east (h : Host) (off : Z) (p : Project) (c : Civil.date) :
  fixedOffset h off -> 0 <= off < msPerDay -> Civil.valid c ->
  Date_of_string h (approvalDate p) = Num (Civil.to_time c) ->
  expiry h p
  = TimeClip (Civil.to_time
                (Civil.plusMonths c
                   (if String.eqb (projectType p) "housing" then 36 else 15))).
Proof.
  intros Hfix Hoff Hv Hd. unfold expiry. rewrite Hd.
  apply (addMonths_fixed_east h off c _ Hfix Hoff Hv).
Qed.

Lemma to_time_fields (c : Civil.date) :
  Civil.valid c ->
  YearFromTime (Civil.to_time c) = Civil.year c
  /\ MonthFromTime (Civil.to_time c) = Civil.month c
  /\ DateFromTime (Civil.to_time c) = Civil.day c
  /\ TimeWithinDay (Civil.to_time c) = 0.
Proof.
  intros Hv. destruct (valid_month c Hv) as [Hdiv Hmod].
  destruct Hv as [Hm Hd].
  destruct (Day_MakeDate (MakeDay (Civil.year c) (Civil.month c) (Civil.day c))
              0 midnight_range) as [Hday Htw].
  destruct (fields_of_day (Civil.to_time c) (Civil.year c) (Civil.month c)
              (Civil.day c) Hm Hd) as (Hy & Hmo & Hdt).
  - unfold Civil.to_time. rewrite Hday. unfold MakeDay.
    rewrite Hdiv, Hmod, Z.add_0_r. reflexivity.
  - repeat split; assumption.
Qed.

Lemma longer_from_fields (t0 y m d n x : Z) :
  YearFromTime t0 = y -> MonthFromTime t0 = m -> DateFromTime t0 = d ->
  TimeWithinDay t0 = 0 ->
  x = MakeDate (MakeDay y (m + n) d) 0 ->
  n = 36 \/ n = 15 ->
  days (30 * n) < x - t0.
Proof.
  intros Hy Hm Hd Htw Hx Hn.
  pose proof (newDate_longer t0 n Hn) as H. unfold newDate in H.
  rewrite Hy, Hm, Hd, Htw, <- Hx in H. exact H.
Qed.

(** The months added are longer than as many periods of 30 days. *)
Lemma plusMonths_longer (c : Civil.date) (n : Z) :
  Civil.valid c -> n = 36 \/ n = 15 ->
  days (30 * n) < Civil.to_time (Civil.plusMonths c n) - Civil.to_time c.
Proof.
  intros Hv Hn.
  destruct (to_time_fields c Hv) as (Hy & Hm & Hd & Htw).
  exact (longer_from_fields _ _ _ _ n _ Hy Hm Hd Htw
           (to_time_plusMonths c n Hv) Hn).
Qed.
(** The calendar date of a time value is that of its day number. *)
Lemma of_time_Day (a b : Z) :
  Day a = Day b -> Civil.of_time a = Civil.of_time b.
Proof.
  intros H.
  unfold Civil.of_time, DateFromTime, MonthFromTime, InLeapYear,
    DayWithinYear, YearFromTime.
  rewrite H. reflexivity.
Qed.

(** West of UTC, by less than a day, UTC midnight of a calendar day lies
    on the day before. *)
Lemma west_is_the_day_before (c : Civil.date) (off : Z) :
  - msPerDay < off < 0 ->
  Civil.of_time (Civil.to_time c + off)
  = Civil.of_time (Civil.to_time c - msPerDay).
Proof.
  intros Hoff. apply of_time_Day.
  unfold Civil.to_time, MakeDate, Day.
  generalize (MakeDay (Civil.year c) (Civil.month c) (Civil.day c)).
  intros k. unfold msPerDay in *. Z.div_mod_to_equations. lia.
Qed.

End FixedZone.

(** * The properties of the evaluator *)

Module Compliance.
Import ES ESFacts MonthFacts MonthLength Evaluator FixedZone.

Local Open Scope string_scope.
Local Open Scope Z_scope.

Lemma pre2026_not_post : forall p, cycle p = "pre2026" -> cycle p <> "post2026".
Proof. intros p H. rewrite H. discriminate. Qed.

(** C1.  A project on the post-2026 cycle is always [compliant], and no
    [expiresAt] and no [monthsLeft] are produced, whatever its approval
    date and project type, on any host and at any time. *)
Theorem post2026_is_compliant (h : Host) (clock : Z) (p : Project) :
  cycle p = "post2026" ->
  exists r,
    computeCompliance h clock p = Normal r
    /\ proj r = p
    /\ status r = compliant
    /\ expiresAt r = None
    /\ monthsLeft r = None.
Proof.
  intros Hc. eexists. split; [apply computeCompliance_post, Hc |].
  repeat split.
Qed.

Lemma post2026_is_compliant_witness :
  Date_of_string utcHost "not-a-date" = NaN
  /\ exists r,
       computeCompliance utcHost 0
         (mkProject "q" "Annex" None "depot" "post2026" "not-a-date")
       = Normal r
       /\ proj r = mkProject "q" "Annex" None "depot" "post2026" "not-a-date"
       /\ status r = compliant
       /\ expiresAt r = None
       /\ monthsLeft r = None.
Proof.
  split; [reflexivity |].
  apply (post2026_is_compliant utcHost 0
           (mkProject "q" "Annex" None "depot" "post2026" "not-a-date")).
  reflexivity.
Defined.

Example p27_compliant (clock : Z) :
  computeCompliance utcHost clock p27
  = Normal (mkDerived p27 None compliant None).
Proof. reflexivity. Qed.

(** In any zone, daylight saving included: the expiry is the instant
    that [UTC] makes of the local time [loc] whose calendar date is the
    local date of the approval instant plus 36 or 15 months, at the same
    local time of day. *)
Lemma expiresAt_adds_calendar_months
  (h : Host) (clock : Z) (p : Project) (n t e : Z) :
  cycle p = "pre2026" ->
  Spec.duration (projectType p) = Some n ->
  Date_of_string h (approvalDate p) = Num t ->
  expiry h p = Num e ->
  exists loc,
    Civil.of_time loc = Civil.plusMonths (Civil.of_time (LocalTime h t)) n
    /\ TimeWithinDay loc = TimeWithinDay (LocalTime h t)
    /\ days (30 * n) < loc - LocalTime h t
    /\ e = UTC h loc
    /\ ((forall x, LocalTime h (UTC h x) = x) ->
        Civil.of_time (LocalTime h e)
        = Civil.plusMonths (Civil.of_time (LocalTime h t)) n)
    /\ exists r iso,
         computeCompliance h clock p = Normal r
         /\ toISOString (Num e) = Normal iso
         /\ expiresAt r = Some iso.
Proof.
  intros Hc Hn Ht He.
  assert (Hty : (if String.eqb (projectType p) "housing" then 36 else 15) = n
                /\ (n = 36 \/ n = 15)).
  { unfold Spec.duration in Hn.
    destruct (String.eqb (projectType p) "housing").
    - injection Hn as <-. auto.
    - destruct (String.eqb (projectType p) "modular"); [| discriminate].
      injection Hn as <-. auto. }
  destruct Hty as [Hty Hn'].
  pose proof He as He'. unfold expiry in He'.
  rewrite Ht, Hty, addMonths_Num in He'. apply TimeClip_Num in He'.
  set (lt := LocalTime h t) in *.
  exists (newDate lt (MonthFromTime lt + n)).
  pose proof (of_time_valid lt) as [_ Hd]. cbn in Hd.
  pose proof (DaysInMonth_range (YearFromTime lt) (MonthFromTime lt)) as Hr.
  pose proof (TimeWithinDay_range lt) as Htw.
  assert (Hcal : Civil.of_time (newDate lt (MonthFromTime lt + n))
                 = Civil.plusMonths (Civil.of_time lt) n)
    by (unfold newDate; apply MakeDay_plusMonths; [lia | exact Htw]).
  split; [exact Hcal |].
  split; [unfold newDate; apply Day_MakeDate, Htw |].
  split; [apply newDate_longer, Hn' |].
  split; [symmetry; exact He' |].
  split.
  - intros Hzone. rewrite <- He', Hzone. exact Hcal.
  - destruct (toISOString_Num e) as [iso Hiso].
    eexists. exists iso.
    rewrite (computeCompliance_window h clock p e (pre2026_not_post p Hc) He).
    rewrite Hiso. cbn. auto.
Qed.


(** On a host at a fixed offset from UTC of 0 up to, but not including,
    24 hours east, the local date of a UTC midnight is the UTC date, and
    the expiry is UTC midnight of the approval date plus the months. *)
Lemma expiresAt_east_of_UTC
  (h : Host) (off : Z) (p : Project) (c : Civil.date) (n e : Z) :
  fixedOffset h off ->
  0 <= off < msPerDay ->
  cycle p = "pre2026" ->
  Spec.duration (projectType p) = Some n ->
  Civil.valid c ->
  Date_of_string h (approvalDate p) = Num (Civil.to_time c) ->
  expiry h p = Num e ->
  e = Civil.to_time (Civil.plusMonths c n)
  /\ Civil.valid (Civil.plusMonths c n)
  /\ Civil.of_time e = Civil.plusMonths c n
  /\ TimeWithinDay e = 0
  /\ days (30 * n) < e - Civil.to_time c.
Proof.
  intros Hfix Hoff Hc Hn Hv Hd He.
  assert (Hty : (if String.eqb (projectType p) "housing" then 36 else 15) = n
                /\ (n = 36 \/ n = 15)).
  { unfold Spec.duration in Hn.
    destruct (String.eqb (projectType p) "housing").
    - injection Hn as <-. auto.
    - destruct (String.eqb (projectType p) "modular"); [| discriminate].
      injection Hn as <-. auto. }
  destruct Hty as [Hty Hn'].
  pose proof (expiry_fixed_east h off p c Hfix Hoff Hv Hd) as Hx.
  rewrite Hty, He in Hx. symmetry in Hx. apply TimeClip_Num in Hx.
  pose proof (plusMonths_valid c n Hv) as Hv'.
  destruct (to_time_fields (Civil.plusMonths c n) Hv') as (Hy & Hm & Hdt & Htw).
  split; [symmetry; exact Hx |]. split; [exact Hv' |].
  rewrite <- Hx.
  split.
  { unfold Civil.of_time. rewrite Hy, Hm, Hdt.
    destruct (Civil.plusMonths c n); reflexivity. }
  split; [exact Htw |].
  apply plusMonths_longer; assumption.
Qed.



(** C3.  For a pre-2026 project with a valid expiry [e], the status is
    [expired] exactly when [e] is strictly before now; otherwise it is
    [expiring] exactly when [monthsLeft < 6]; otherwise it is [valid]. *)
Theorem status_rule (h : Host) (clock : Z) (p : Project) (e : Z) :
  cycle p = "pre2026" ->
  expiry h p = Num e ->
  exists r m,
    computeCompliance h clock p = Normal r
    /\ monthsLeft r = Some (Num m)
    /\ (status r = expired <-> e < clock)
    /\ (status r = expiring <-> ~ e < clock /\ m < 6)
    /\ (status r = valid <-> ~ e < clock /\ ~ m < 6).
Proof.
  intros Hc He.
  rewrite (computeCompliance_window h clock p e (pre2026_not_post p Hc) He).
  destruct (toISOString_Num e) as [iso ->]. cbn [bind].
  set (m := Z.max 0 ((2 * (e - clock) + msPer30Days) / (2 * msPer30Days))).
  eexists. exists m. split; [reflexivity |]. cbn [monthsLeft status].
  split; [reflexivity |].
  destruct (Z.ltb_spec e clock), (Z.ltb_spec m 6);
    repeat split; intros; try discriminate; try lia; try tauto.
Qed.

Lemma status_rule_witness :
  (cycle p22 = "pre2026" /\ expiry utcHost p22 = Num (midnight 2025 3 15))
  /\ exists r m,
       computeCompliance utcHost (midnight 2025 1 1) p22 = Normal r
       /\ monthsLeft r = Some (Num m)
       /\ (status r = expired <-> midnight 2025 3 15 < midnight 2025 1 1)
       /\ (status r = expiring
           <-> ~ midnight 2025 3 15 < midnight 2025 1 1 /\ m < 6)
       /\ (status r = valid
           <-> ~ midnight 2025 3 15 < midnight 2025 1 1 /\ ~ m < 6).
Proof.
  assert (H1 : cycle p22 = "pre2026") by reflexivity.
  assert (H2 : expiry utcHost p22 = Num (midnight 2025 3 15))
    by (vm_compute; reflexivity).
  split; [auto |].
  exact (status_rule utcHost (midnight 2025 1 1) p22 _ H1 H2).
Defined.

(** C4.  For a pre-2026 project with a valid expiry [e], [monthsLeft] is
    [(e - now) / 30 days] rounded to the nearest integer and clamped at
    zero from below; it is zero once the expiry is not in the future. *)
Theorem monthsLeft_in_thirty_day_months
  (h : Host) (clock : Z) (p : Project) (e : Z) :
  cycle p = "pre2026" ->
  expiry h p = Num e ->
  exists r k,
    computeCompliance h clock p = Normal r
    /\ Spec.rounds_to (e - clock) (days 30) k
    /\ monthsLeft r = Some (Num (Z.max 0 k))
    /\ 0 <= Z.max 0 k
    /\ (e <= clock -> monthsLeft r = Some (Num 0)).
Proof.
  intros Hc He.
  rewrite (computeCompliance_window h clock p e (pre2026_not_post p Hc) He).
  destruct (toISOString_Num e) as [iso ->]. cbn [bind].
  rewrite msPer30Days_days.
  set (k := (2 * (e - clock) + days 30) / (2 * days 30)).
  assert (Hk : Spec.rounds_to (e - clock) (days 30) k)
    by (apply round_half_up; reflexivity).
  eexists. exists k. split; [reflexivity |]. cbn [monthsLeft].
  repeat split; try apply Hk; try lia.
  intros Hpast. do 2 f_equal.
  unfold Spec.rounds_to in Hk. change (days 30) with 2592000000 in Hk. lia.
Qed.

Lemma monthsLeft_in_thirty_day_months_witness :
  (cycle p22 = "pre2026" /\ expiry utcHost p22 = Num (midnight 2025 3 15))
  /\ exists r k,
       computeCompliance utcHost (midnight 2024 6 1) p22 = Normal r
       /\ Spec.rounds_to (midnight 2025 3 15 - midnight 2024 6 1) (days 30) k
       /\ monthsLeft r = Some (Num (Z.max 0 k))
       /\ 0 <= Z.max 0 k
       /\ (midnight 2025 3 15 <= midnight 2024 6 1
           -> monthsLeft r = Some (Num 0)).
Proof.
  assert (H1 : cycle p22 = "pre2026") by reflexivity.
  assert (H2 : expiry utcHost p22 = Num (midnight 2025 3 15))
    by (vm_compute; reflexivity).
  split; [auto |].
  exact (monthsLeft_in_thirty_day_months utcHost (midnight 2024 6 1) p22 _ H1 H2).
Defined.




(** C6, as it stands, fails: a project type and a cycle outside the two
    unions are evaluated, as modular and as pre-2026. *)
Lemma unknown_enum_values_accepted :
  let p := mkProject "q" "Depot" None "commercial" "pre2025" "2022-03-15" in
  ~ isProjectType (projectType p)
  /\ ~ isCodeCycle (cycle p)
  /\ computeCompliance utcHost (midnight 2023 3 1) p
     = Normal (mkDerived p (Some "2023-06-15T00:00:00.000Z") expiring
                 (Some (Num 4))).
Proof.
  cbn zeta. split; [| split].
  - intros [H | H]; discriminate H.
  - intros [H | H]; discriminate H.
  - vm_compute. reflexivity.
Qed.

(** C6, amended.  No value of [projectType] or [cycle] is rejected: a
    cycle other than post2026 is read as pre2026 and a project type other
    than housing as modular, so the derived fields are those of the
    project with the two fields so replaced. *)
Theorem enum_values_default (h : Host) (clock : Z) (p : Project) :
  isProjectType (projectType (asRead p))
  /\ isCodeCycle (cycle (asRead p))
  /\ derived (computeCompliance h clock p)
     = derived (computeCompliance h clock (asRead p)).
Proof.
  unfold isProjectType, isCodeCycle, asRead; cbn [projectType cycle].
  split; [destruct (String.eqb (projectType p) "housing"); auto |].
  split; [destruct (String.eqb (cycle p) "post2026"); auto |].
  unfold computeCompliance; cbn [projectType cycle approvalDate].
  destruct (String.eqb (cycle p) "post2026"); [reflexivity |].
  cbn [String.eqb Ascii.eqb Bool.eqb].
  destruct (String.eqb (projectType p) "housing"); cbn [String.eqb Ascii.eqb Bool.eqb].
  - match goal with
    | |- derived (bind ?c _) = _ => destruct c; reflexivity
    end.
  - match goal with
    | |- derived (bind ?c _) = _ => destruct c; reflexivity
    end.
Qed.

Lemma monthsLeft_antitone (e now1 now2 : Z) :
  now1 <= now2 ->
  Z.max 0 ((2 * (e - now2) + msPer30Days) / (2 * msPer30Days))
  <= Z.max 0 ((2 * (e - now1) + msPer30Days) / (2 * msPer30Days)).
Proof.
  intros H. apply Z.max_le_compat_l, Z.div_le_mono; [reflexivity | lia].
Qed.

(** C7.  With the project fixed, a later clock never lowers the risk:
    under valid < expiring < expired the status at [now2] is at least the
    status at [now1] whenever [now1 <= now2].  A post-2026 project stays
    [compliant], and an evaluation that throws does so at every time. *)
Theorem status_monotone_in_time (h : Host) (p : Project) (now1 now2 : Z) :
  now1 <= now2 ->
  match computeCompliance h now1 p, computeCompliance h now2 p with
  | Normal r1, Normal r2 =>
      Spec.risk_le (status r1) (status r2)
      /\ (status r1 = compliant <-> status r2 = compliant)
  | Throw e1, Throw e2 => e1 = e2
  | _, _ => False
  end.
Proof.
  intros Hle.
  destruct (string_dec (cycle p) "post2026") as [Hc | Hc].
  - rewrite !computeCompliance_post by exact Hc.
    cbn. unfold Spec.risk_le. split; [lia | tauto].
  - destruct (expiry h p) as [e |] eqn:He.
    + rewrite !(computeCompliance_window h _ p e Hc He).
      destruct (toISOString_Num e) as [iso ->]. cbn [bind status].
      pose proof (monthsLeft_antitone e now1 now2 Hle) as Hm.
      unfold Spec.risk_le.
      destruct (Z.ltb_spec e now1), (Z.ltb_spec e now2); try lia;
        repeat match goal with
               | |- context [?a <? 6] => destruct (Z.ltb_spec a 6)
               end;
        cbn; (split; [lia | split; discriminate]).
    + rewrite !computeCompliance_invalid by assumption. reflexivity.
Qed.

Lemma status_monotone_in_time_witness :
  midnight 2024 6 1 <= midnight 2025 1 1
  /\ match computeCompliance utcHost (midnight 2024 6 1) p22,
           computeCompliance utcHost (midnight 2025 1 1) p22 with
     | Normal r1, Normal r2 =>
         Spec.risk_le (status r1) (status r2)
         /\ (status r1 = compliant <-> status r2 = compliant)
     | Throw e1, Throw e2 => e1 = e2
     | _, _ => False
     end.
Proof.
  assert (H : midnight 2024 6 1 <= midnight 2025 1 1)
    by (vm_compute; discriminate).
  split; [exact H |].
  exact (status_monotone_in_time utcHost p22 _ _ H).
Defined.


Lemma p22_at (h : Host) (clock lo k : Z) (st : Status) :
  expiry h p22 = Num 1741996800000 ->
  lo <= clock < lo + msPerDay ->
  (2 * (1741996800000 - (lo + msPerDay)) + msPer30Days) / (2 * msPer30Days)
  = k ->
  (2 * (1741996800000 - lo) + msPer30Days) / (2 * msPer30Days) = k ->
  (if 1741996800000 <? lo then expired
   else if Z.max 0 k <? 6 then expiring else valid) = st ->
  (1741996800000 <? lo) = (1741996800000 <? lo + msPerDay - 1) ->
  computeCompliance h clock p22
  = Normal (mkDerived p22 (Some "2025-03-15T00:00:00.000Z") st
              (Some (Num (Z.max 0 k)))).
Proof.
  intros He Hclock Hk1 Hk2 Hst Hside.
  rewrite (computeCompliance_window h clock p22 _ ltac:(discriminate) He).
  assert (Hiso : toISOString (Num 1741996800000)
                 = Normal "2025-03-15T00:00:00.000Z")
    by (vm_compute; reflexivity).
  rewrite Hiso. cbn [bind].
  assert (Hm : (2 * (1741996800000 - clock) + msPer30Days) / (2 * msPer30Days)
               = k).
  { pose proof (Z.div_le_mono (2 * (1741996800000 - (lo + msPerDay))
                                 + msPer30Days)
                  (2 * (1741996800000 - clock) + msPer30Days)
                  (2 * msPer30Days) eq_refl ltac:(lia)) as L.
    pose proof (Z.div_le_mono (2 * (1741996800000 - clock) + msPer30Days)
                  (2 * (1741996800000 - lo) + msPer30Days)
                  (2 * msPer30Days) eq_refl ltac:(lia)) as U.
    lia. }
  rewrite Hm.
  assert (Hlt : (1741996800000 <? clock) = (1741996800000 <? lo)).
  { destruct (Z.ltb_spec 1741996800000 lo),
             (Z.ltb_spec 1741996800000 (lo + msPerDay - 1)),
             (Z.ltb_spec 1741996800000 clock);
      try reflexivity; try discriminate; lia. }
  rewrite Hlt, Hst. reflexivity.
Qed.



(** C9, as it stands, fails: an expiry 6 months less a day away gives
    [valid], counting the months as 30 days (179 days) or by the
    calendar (2024-09-16 to 2025-03-15, 180 days). *)
Lemma six_months_less_a_day_is_valid :
  expiry utcHost p22 = Num (midnight 2025 3 15)
  /\ (exists r,
        computeCompliance utcHost (midnight 2025 3 15 - days 179) p22 = Normal r
        /\ status r = valid /\ status r <> expiring)
  /\ (exists r,
        Civil.plusMonths (Civil.mkdate 2024 8 15) 6 = Civil.mkdate 2025 2 15
        /\ computeCompliance utcHost (midnight 2024 9 16) p22 = Normal r
        /\ status r = valid /\ status r <> expiring).
Proof.
  split; [vm_compute; reflexivity |].
  split; eexists.
  - split; [vm_compute; reflexivity |]. split; [reflexivity | discriminate].
  - split; [reflexivity |].
    split; [vm_compute; reflexivity |]. split; [reflexivity | discriminate].
Qed.

(** C9, amended.  For a pre-2026 project with a valid expiry, the line
    between [expiring] and [valid] lies at 165 days (five and a half
    periods of 30 days): an expiry not before now and less than 165 days
    away gives [expiring]; an expiry 165 days or more away gives
    [valid]. *)
Theorem expiring_boundary (h : Host) (clock : Z) (p : Project) (e : Z) :
  cycle p = "pre2026" ->
  expiry h p = Num e ->
  exists r,
    computeCompliance h clock p = Normal r
    /\ (clock <= e -> e - clock < days 165 -> status r = expiring)
    /\ (days 165 <= e - clock -> status r = valid).
Proof.
  intros Hc He.
  rewrite (computeCompliance_window h clock p e (pre2026_not_post p Hc) He).
  destruct (toISOString_Num e) as [iso ->]. cbn [bind].
  eexists. split; [reflexivity |]. cbn [status].
  change msPer30Days with 2592000000. change (days 165) with 14256000000.
  set (q := (2 * (e - clock) + 2592000000) / (2 * 2592000000)).
  assert (Hq : q < 6 <-> e - clock < 14256000000)
    by (subst q; split; intros; Z.div_mod_to_equations; lia).
  split.
  - intros H1 H2. destruct (Z.ltb_spec e clock); [lia |].
    destruct (Z.ltb_spec (Z.max 0 q) 6); [reflexivity | lia].
  - intros H1. destruct (Z.ltb_spec e clock); [lia |].
    destruct (Z.ltb_spec (Z.max 0 q) 6); [lia | reflexivity].
Qed.

Lemma expiring_boundary_witness :
  (cycle p22 = "pre2026" /\ expiry utcHost p22 = Num (midnight 2025 3 15))
  /\ exists r,
       computeCompliance utcHost (midnight 2025 3 15 - days 165) p22 = Normal r
       /\ (midnight 2025 3 15 - days 165 <= midnight 2025 3 15
           -> midnight 2025 3 15 - (midnight 2025 3 15 - days 165) < days 165
           -> status r = expiring)
       /\ (days 165 <= midnight 2025 3 15 - (midnight 2025 3 15 - days 165)
           -> status r = valid).
Proof.
  assert (H1 : cycle p22 = "pre2026") by reflexivity.
  assert (H2 : expiry utcHost p22 = Num (midnight 2025 3 15))
    by (vm_compute; reflexivity).
  split; [auto |].
  exact (expiring_boundary utcHost (midnight 2025 3 15 - days 165) p22 _ H1 H2).
Defined.

(** C10.  No months left does not mean expired: a pre-2026 project whose
    expiry is still ahead, by less than 15 days, is [expiring] with
    [monthsLeft = 0]. *)
Theorem zero_months_left_not_expired
  (h : Host) (clock : Z) (p : Project) (e : Z) :
  cycle p = "pre2026" ->
  expiry h p = Num e ->
  clock < e ->
  e - clock < days 15 ->
  exists r,
    computeCompliance h clock p = Normal r
    /\ status r = expiring
    /\ monthsLeft r = Some (Num 0).
Proof.
  intros Hc He Hlt Hnear.
  rewrite (computeCompliance_window h clock p e (pre2026_not_post p Hc) He).
  destruct (toISOString_Num e) as [iso ->]. cbn [bind].
  eexists. split; [reflexivity |]. cbn [status monthsLeft].
  change msPer30Days with 2592000000. change (days 15) with 1296000000 in Hnear.
  replace ((2 * (e - clock) + 2592000000) / (2 * 2592000000)) with 0
    by (Z.div_mod_to_equations; lia).
  destruct (Z.ltb_spec e clock); [lia |]. split; reflexivity.
Qed.

Lemma zero_months_left_not_expired_witness :
  (cycle p22 = "pre2026"
   /\ expiry utcHost p22 = Num (midnight 2025 3 15)
   /\ midnight 2025 3 5 < midnight 2025 3 15
   /\ midnight 2025 3 15 - midnight 2025 3 5 < days 15)
  /\ exists r,
       computeCompliance utcHost (midnight 2025 3 5) p22 = Normal r
       /\ status r = expiring
       /\ monthsLeft r = Some (Num 0).
Proof.
  assert (H1 : cycle p22 = "pre2026") by reflexivity.
  assert (H2 : expiry utcHost p22 = Num (midnight 2025 3 15))
    by (vm_compute; reflexivity).
  assert (H3 : midnight 2025 3 5 < midnight 2025 3 15) by reflexivity.
  assert (H4 : midnight 2025 3 15 - midnight 2025 3 5 < days 15) by reflexivity.
  split; [auto |].
  exact (zero_months_left_not_expired utcHost (midnight 2025 3 5) p22 _
           H1 H2 H3 H4).
Defined.

End Compliance.

(** * The compliance panel *)

Module Panel.
Import ES Evaluator ADXSplash.

Local Open Scope string_scope.
Local Open Scope Z_scope.

(** What a call that returns has returned. *)
Lemma computeCompliance_returns
  (h : Host) (clock : Z) (p : Project) (r : ProjectWithDerived) :
  computeCompliance h clock p = Normal r ->
  (cycle p = "post2026" /\ r = mkDerived p None compliant None)
  \/ (cycle p <> "post2026"
      /\ exists e iso,
           expiry h p = Num e
           /\ toISOString (Num e) = Normal iso
           /\ r = mkDerived p (Some iso)
                    (if e <? clock then expired
                     else if Z.max 0 ((2 * (e - clock) + msPer30Days)
                                      / (2 * msPer30Days)) <? 6
                          then expiring else valid)
                    (Some (Num (Z.max 0 ((2 * (e - clock) + msPer30Days)
                                         / (2 * msPer30Days)))))).
Proof.
  intros H.
  destruct (string_dec (cycle p) "post2026") as [Hc | Hc].
  - left. split; [exact Hc |].
    rewrite (computeCompliance_post h clock p Hc) in H. congruence.
  - right. split; [exact Hc |].
    destruct (expiry h p) as [e |] eqn:He.
    + rewrite (computeCompliance_window h clock p e Hc He) in H.
      destruct (toISOString_Num e) as [iso Hiso]. rewrite Hiso in H.
      cbn [bind] in H. exists e, iso. repeat split; congruence.
    + rewrite (computeCompliance_invalid h clock p Hc He) in H. discriminate.
Qed.

Lemma computeCompliance_proj
  (h : Host) (clock : Z) (p : Project) (r : ProjectWithDerived) :
  computeCompliance h clock p = Normal r -> proj r = p.
Proof.
  intros H. apply computeCompliance_returns in H.
  destruct H as [[_ ->] | [_ (e & iso & _ & _ & ->)]]; reflexivity.
Qed.

Lemma computeCompliance_compliant_iff
  (h : Host) (clock : Z) (p : Project) (r : ProjectWithDerived) :
  computeCompliance h clock p = Normal r ->
  (status r = compliant <-> cycle p = "post2026").
Proof.
  intros H. apply computeCompliance_returns in H.
  destruct H as [[Hc ->] | [Hc (e & iso & _ & _ & ->)]]; cbn [status].
  - tauto.
  - split; [| tauto].
    destruct (e <? clock); [discriminate |].
    destruct (_ <? 6); discriminate.
Qed.

(** X1.  A label of the form "Expires in Nm" always shows one digit from 0
    to 5: an [expiring] result of the evaluator has between 0 and 5
    months left, never an undefined or NaN count. *)
Theorem expiring_label_one_digit
  (h : Host) (clock : Z) (p : Project) (r : ProjectWithDerived) :
  computeCompliance h clock p = Normal r ->
  status r = expiring ->
  exists k,
    0 <= k <= 5
    /\ monthsLeft r = Some (Num k)
    /\ statusLabel r
       = "Expires in " ++ String (ascii_of_nat (48 + Z.to_nat k)) "m".
Proof.
  intros H Hs. pose proof (computeCompliance_returns h clock p r H) as Hr.
  destruct Hr as [[_ ->] | [Hc (e & iso & _ & _ & ->)]]; [discriminate |].
  cbn [status] in Hs.
  set (m := Z.max 0 ((2 * (e - clock) + msPer30Days) / (2 * msPer30Days))) in *.
  assert (Hm : 0 <= m <= 5).
  { destruct (e <? clock); [discriminate |].
    destruct (Z.ltb_spec m 6); [| discriminate]. subst m. lia. }
  exists m. split; [exact Hm |]. split; [reflexivity |].
  unfold statusLabel. cbn [proj status monthsLeft].
  apply String.eqb_neq in Hc. rewrite Hc.
  destruct (e <? clock); [discriminate |].
  destruct (m <? 6); [| discriminate].
  assert (Hk : m = 0 \/ m = 1 \/ m = 2 \/ m = 3 \/ m = 4 \/ m = 5) by lia.
  clearbody m. destruct Hk as [-> | [-> | [-> | [-> | [-> | ->]]]]]; reflexivity.
Qed.

Lemma expiring_label_one_digit_witness :
  (computeCompliance utcHost (midnight 2025 1 1) p22
   = Normal (mkDerived p22 (Some "2025-03-15T00:00:00.000Z") expiring
               (Some (Num 2)))
   /\ status (mkDerived p22 (Some "2025-03-15T00:00:00.000Z") expiring
                (Some (Num 2))) = expiring)
  /\ exists k,
       0 <= k <= 5
       /\ monthsLeft (mkDerived p22 (Some "2025-03-15T00:00:00.000Z") expiring
                        (Some (Num 2))) = Some (Num k)
       /\ statusLabel (mkDerived p22 (Some "2025-03-15T00:00:00.000Z")
                         expiring (Some (Num 2)))
          = "Expires in " ++ String (ascii_of_nat (48 + Z.to_nat k)) "m".
Proof.
  assert (H1 : computeCompliance utcHost (midnight 2025 1 1) p22
               = Normal (mkDerived p22 (Some "2025-03-15T00:00:00.000Z")
                           expiring (Some (Num 2))))
    by (vm_compute; reflexivity).
  split; [split; [exact H1 | reflexivity] |].
  exact (expiring_label_one_digit utcHost (midnight 2025 1 1) p22 _ H1 eq_refl).
Defined.

(** X2.  [statusLabel] looks at the cycle and [badgeTone] at the status; on
    what the evaluator returns the two agree: the compliant label goes
    with status [compliant] and with no other, "Expired" with [expired],
    "Valid" with [valid]. *)
Theorem label_agrees_with_status
  (h : Host) (clock : Z) (p : Project) (r : ProjectWithDerived) :
  computeCompliance h clock p = Normal r ->
  (statusLabel r = "CBSC 2026+ — Compliant" <-> status r = compliant)
  /\ (statusLabel r = "Expired" <-> status r = expired)
  /\ (statusLabel r = "Valid" <-> status r = valid).
Proof.
  intros H.
  pose proof (computeCompliance_compliant_iff h clock p r H) as Hc.
  pose proof (computeCompliance_proj h clock p r H) as Hp.
  unfold statusLabel. rewrite Hp.
  destruct (String.eqb_spec (cycle p) "post2026") as [E | E].
  - assert (Hs : status r = compliant) by tauto. rewrite Hs.
    repeat split; intros; try reflexivity; discriminate.
  - assert (Hs : status r <> compliant) by tauto.
    destruct (status r); try congruence;
      repeat split; intros; try reflexivity; try discriminate.
Qed.

Lemma label_agrees_with_status_witness :
  computeCompliance utcHost (midnight 2025 4 1) p22
  = Normal (mkDerived p22 (Some "2025-03-15T00:00:00.000Z") expired
              (Some (Num 0)))
  /\ (statusLabel (mkDerived p22 (Some "2025-03-15T00:00:00.000Z") expired
                     (Some (Num 0))) = "Expired"
      <-> expired = expired).
Proof.
  assert (H1 : computeCompliance utcHost (midnight 2025 4 1) p22
               = Normal (mkDerived p22 (Some "2025-03-15T00:00:00.000Z")
                           expired (Some (Num 0))))
    by (vm_compute; reflexivity).
  split; [exact H1 |].
  exact (proj1 (proj2
    (label_agrees_with_status utcHost (midnight 2025 4 1) p22 _ H1))).
Defined.

(** X3.  Each project is counted in exactly one of the three counters, and
    the alerts are the projects of the last two. *)
Theorem compCounts_partition (d : list ProjectWithDerived) :
  (Counts.valid (compCounts d) + Counts.expiring (compCounts d)
   + Counts.expired (compCounts d) = List.length d)%nat
  /\ (List.length (alerts d)
      = Counts.expiring (compCounts d) + Counts.expired (compCounts d))%nat.
Proof.
  unfold compCounts, alerts; cbn [Counts.valid Counts.expiring Counts.expired].
  induction d as [| x d [IH1 IH2]]; [split; reflexivity |].
  cbn [filter List.length]. destruct (status x); cbn; lia.
Qed.

Lemma deriveFrom_returns (h : Host) (clock : nat -> Z)
  (ps : list Project) (i : nat) (d : list ProjectWithDerived) :
  deriveFrom h clock i ps = Normal d ->
  Forall2 (fun p r => exists k, computeCompliance h (clock k) p = Normal r) ps d.
Proof.
  revert i d. induction ps as [| p ps IH]; intros i d H; cbn in H.
  - injection H as <-. constructor.
  - destruct (computeCompliance h (clock i) p) as [r |] eqn:Hr;
      [| discriminate].
    cbn [bind] in H.
    destruct (deriveFrom h clock (S i) ps) as [rs |] eqn:Hrs; [| discriminate].
    cbn [bind] in H. injection H as <-.
    constructor; [exists i; exact Hr | eapply IH; exact Hrs].
Qed.

(** X4.  When the map returns, the result lists the projects in the order
    given, one entry each, with every project field carried through. *)
Theorem derived_carries_projects (h : Host) (clock : nat -> Z)
  (ps : list Project) (d : list ProjectWithDerived) :
  derived h clock ps = Normal d ->
  map proj d = ps /\ List.length d = List.length ps.
Proof.
  intros H. apply deriveFrom_returns in H.
  induction H as [| p r ps d [k Hk] _ [IH1 IH2]]; [split; reflexivity |].
  cbn. rewrite IH1, IH2, (computeCompliance_proj _ _ _ _ Hk). split; reflexivity.
Qed.

Lemma derived_carries_projects_witness :
  derived utcHost (fun _ => midnight 2025 1 1) [p22; p25; p27]
  = Normal
      [mkDerived p22 (Some "2025-03-15T00:00:00.000Z") expiring (Some (Num 2));
       mkDerived p25 (Some "2026-04-10T00:00:00.000Z") valid (Some (Num 15));
       mkDerived p27 None compliant None]
  /\ map proj
       [mkDerived p22 (Some "2025-03-15T00:00:00.000Z") expiring (Some (Num 2));
        mkDerived p25 (Some "2026-04-10T00:00:00.000Z") valid (Some (Num 15));
        mkDerived p27 None compliant None]
     = [p22; p25; p27].
Proof.
  assert (H : derived utcHost (fun _ => midnight 2025 1 1) [p22; p25; p27]
    = Normal
      [mkDerived p22 (Some "2025-03-15T00:00:00.000Z") expiring (Some (Num 2));
       mkDerived p25 (Some "2026-04-10T00:00:00.000Z") valid (Some (Num 15));
       mkDerived p27 None compliant None])
    by (vm_compute; reflexivity).
  split; [exact H |].
  exact (proj1 (derived_carries_projects utcHost _ _ _ H)).
Defined.

Lemma deriveFrom_throws (h : Host) (clock : nat -> Z)
  (ps : list Project) (i : nat) :
  (exists e, deriveFrom h clock i ps = Throw e)
  <-> Exists (fun p => cycle p <> "post2026" /\ expiry h p = NaN) ps.
Proof.
  revert i. induction ps as [| p ps IH]; intros i; cbn [deriveFrom].
  - split; [intros [e H]; discriminate | intros H; inversion H].
  - destruct (string_dec (cycle p) "post2026") as [Hc | Hc].
    + rewrite (computeCompliance_post h _ p Hc). cbn [bind].
      specialize (IH (S i)).
      destruct (deriveFrom h clock (S i) ps) as [rs |] eqn:Hrs; cbn [bind].
      * split; [intros [e H]; discriminate |].
        intros H. inversion H as [? ? [Hn _] | ? ? Hex]; subst.
        -- contradiction.
        -- apply IH in Hex. destruct Hex as [e' He']. discriminate.
      * split; [| intros; eexists; reflexivity].
        intros _. apply Exists_cons_tl, IH. eexists; reflexivity.
    + destruct (expiry h p) as [e |] eqn:He.
      * rewrite (computeCompliance_window h _ p e Hc He).
        destruct (toISOString_Num e) as [iso ->]. cbn [bind].
        specialize (IH (S i)).
        destruct (deriveFrom h clock (S i) ps) as [rs |] eqn:Hrs; cbn [bind].
        -- split; [intros [e' H]; discriminate |].
           intros H. inversion H as [? ? [_ Hn] | ? ? Hex]; subst.
           ++ congruence.
           ++ apply IH in Hex. destruct Hex as [e' He']. discriminate.
        -- split; [| intros; eexists; reflexivity].
           intros _. apply Exists_cons_tl, IH. eexists; reflexivity.
      * rewrite (computeCompliance_invalid h _ p Hc He). cbn [bind].
        split; [| intros; eexists; reflexivity].
        intros _. apply Exists_cons_hd. split; assumption.
Qed.

(** X5.  One bad date takes the whole list down: the map throws exactly when
    some project off the post-2026 cycle has no valid expiry date (its
    approval date does not parse, or the expiry leaves the Date range),
    whatever the clock and however many other projects are fine. *)
Theorem derived_throws_iff (h : Host) (clock : nat -> Z) (ps : list Project) :
  (exists e, derived h clock ps = Throw e)
  <-> exists p, In p ps /\ cycle p <> "post2026" /\ expiry h p = NaN.
Proof.
  unfold derived. rewrite deriveFrom_throws, Exists_exists. reflexivity.
Qed.

Lemma Forall2_In_right {A B : Type} (R : A -> B -> Prop)
  (l : list A) (l' : list B) (b : B) :
  Forall2 R l l' -> In b l' -> exists a, In a l /\ R a b.
Proof.
  induction 1 as [| a b' l l' Hab _ IH]; intros Hin; [inversion Hin |].
  destruct Hin as [<- | Hin].
  - exists a. split; [left; reflexivity | exact Hab].
  - destruct (IH Hin) as (a' & Ha' & HR). exists a'. split; [right |]; assumption.
Qed.

(** X6.  An alert is never raised for a post-2026 project: every alert of a
    derived list belongs to one of the projects given, is off the
    post-2026 cycle and carries an expiry date. *)
Theorem alerts_are_windowed (h : Host) (clock : nat -> Z)
  (ps : list Project) (d : list ProjectWithDerived) (r : ProjectWithDerived) :
  derived h clock ps = Normal d ->
  In r (alerts d) ->
  In (proj r) ps
  /\ cycle (proj r) <> "post2026"
  /\ (exists iso, expiresAt r = Some iso)
  /\ badgeTone (status r) <> badgeTone valid.
Proof.
  intros H Hin. apply deriveFrom_returns in H.
  unfold alerts in Hin. apply filter_In in Hin. destruct Hin as [Hin Hst].
  destruct (Forall2_In_right _ _ _ _ H Hin) as (p & Hp & k & Hk).
  pose proof (computeCompliance_proj _ _ _ _ Hk) as Hpr.
  pose proof (computeCompliance_returns _ _ _ _ Hk) as Hr.
  rewrite Hpr. split; [exact Hp |].
  destruct Hr as [[_ ->] | [Hc (e & iso & _ & _ & ->)]].
  - cbn in Hst. discriminate.
  - split; [exact Hc |]. split; [exists iso; reflexivity |].
    cbn [status] in *. destruct (e <? clock k); [discriminate |].
    destruct (_ <? 6); [discriminate | cbn in Hst; discriminate].
Qed.

Lemma alerts_are_windowed_witness :
  let d :=
    [mkDerived p22 (Some "2025-03-15T00:00:00.000Z") expiring (Some (Num 2));
     mkDerived p25 (Some "2026-04-10T00:00:00.000Z") valid (Some (Num 15));
     mkDerived p27 None compliant None] in
  let r :=
    mkDerived p22 (Some "2025-03-15T00:00:00.000Z") expiring (Some (Num 2)) in
  (derived utcHost (fun _ => midnight 2025 1 1) [p22; p25; p27] = Normal d
   /\ In r (alerts d))
  /\ In (proj r) [p22; p25; p27]
  /\ cycle (proj r) <> "post2026"
  /\ (exists iso, expiresAt r = Some iso)
  /\ badgeTone (status r) <> badgeTone valid.
Proof.
  intros d r.
  assert (H : derived utcHost (fun _ => midnight 2025 1 1) [p22; p25; p27]
              = Normal d) by (vm_compute; reflexivity).
  assert (Hin : In r (alerts d)) by (left; reflexivity).
  split; [split; assumption |].
  exact (alerts_are_windowed utcHost _ _ d r H Hin).
Defined.

Lemma derived_throws_iff_witness :
  exists e,
    derived utcHost (fun _ => midnight 2025 1 1)
      [p22; mkProject "q" "Annex" None "housing" "pre2026" "soon"; p27]
    = Throw e.
Proof.
  apply (proj2 (derived_throws_iff utcHost (fun _ => midnight 2025 1 1)
    [p22; mkProject "q" "Annex" None "housing" "pre2026" "soon"; p27])).
  exists (mkProject "q" "Annex" None "housing" "pre2026" "soon").
  split; [right; left; reflexivity |].
  split; [discriminate | reflexivity].
Defined.

(** How a status can move when the clock moves on. *)
Lemma status_moves_up (h : Host) (p : Project) (c1 c2 : Z)
  (r1 r2 : ProjectWithDerived) :
  c1 <= c2 ->
  computeCompliance h c1 p = Normal r1 ->
  computeCompliance h c2 p = Normal r2 ->
  risk (status r1) <= risk (status r2)
  /\ (status r1 = compliant <-> status r2 = compliant).
Proof.
  intros Hle H1 H2.
  apply computeCompliance_returns in H1, H2.
  destruct H1 as [[Hc1 ->] | [Hc1 (e1 & iso1 & He1 & _ & ->)]];
    destruct H2 as [[Hc2 ->] | [Hc2 (e2 & iso2 & He2 & _ & ->)]];
    try contradiction; cbn [status].
  - split; [reflexivity | tauto].
  - assert (e2 = e1) by congruence. subst e2.
    pose proof (Z.div_le_mono (2 * (e1 - c2) + msPer30Days)
                  (2 * (e1 - c1) + msPer30Days) (2 * msPer30Days)
                  eq_refl ltac:(lia)) as Hm.
    destruct (Z.ltb_spec e1 c1), (Z.ltb_spec e1 c2); try lia;
      repeat match goal with
             | |- context [?a <? 6] => destruct (Z.ltb_spec a 6)
             end;
      cbn; try lia; (split; [lia | split; discriminate]).
Qed.

Lemma alerts_count_step (x y : ProjectWithDerived)
  (d1 d2 : list ProjectWithDerived) :
  risk (status x) <= risk (status y) ->
  (List.length (alerts d1) <= List.length (alerts d2))%nat ->
  (List.length (alerts (x :: d1)) <= List.length (alerts (y :: d2)))%nat.
Proof.
  unfold alerts. cbn [filter].
  destruct (status x), (status y); cbn; lia.
Qed.

Lemma expired_count_step (x y : ProjectWithDerived)
  (d1 d2 : list ProjectWithDerived) :
  risk (status x) <= risk (status y) ->
  (Counts.expired (compCounts d1) <= Counts.expired (compCounts d2))%nat ->
  (Counts.expired (compCounts (x :: d1))
   <= Counts.expired (compCounts (y :: d2)))%nat.
Proof.
  unfold compCounts. cbn [Counts.expired filter].
  destruct (status x), (status y); cbn; lia.
Qed.

Lemma deriveFrom_moves_up (h : Host) (clock1 clock2 : nat -> Z)
  (ps : list Project) (i : nat) (d1 d2 : list ProjectWithDerived) :
  (forall k, clock1 k <= clock2 k) ->
  deriveFrom h clock1 i ps = Normal d1 ->
  deriveFrom h clock2 i ps = Normal d2 ->
  Forall2 (fun x y => risk (status x) <= risk (status y)) d1 d2.
Proof.
  intros Hle. revert i d1 d2.
  induction ps as [| p ps IH]; intros i d1 d2 H1 H2; cbn in H1, H2.
  - injection H1 as <-. injection H2 as <-. constructor.
  - destruct (computeCompliance h (clock1 i) p) as [r1 |] eqn:Hr1;
      [| discriminate].
    destruct (computeCompliance h (clock2 i) p) as [r2 |] eqn:Hr2;
      [| discriminate].
    cbn [bind] in H1, H2.
    destruct (deriveFrom h clock1 (S i) ps) as [rs1 |] eqn:E1; [| discriminate].
    destruct (deriveFrom h clock2 (S i) ps) as [rs2 |] eqn:E2; [| discriminate].
    cbn [bind] in H1, H2. injection H1 as <-. injection H2 as <-.
    constructor; [| eapply IH; eassumption].
    exact (proj1 (status_moves_up h p _ _ r1 r2 (Hle i) Hr1 Hr2)).
Qed.

(** X7.  Time only adds alerts: for the same projects derived at later clock
    readings, there are at least as many alerts and at least as many
    expired projects as before. *)
Theorem alerts_grow_with_time (h : Host) (clock1 clock2 : nat -> Z)
  (ps : list Project) (d1 d2 : list ProjectWithDerived) :
  (forall k, clock1 k <= clock2 k) ->
  derived h clock1 ps = Normal d1 ->
  derived h clock2 ps = Normal d2 ->
  (List.length (alerts d1) <= List.length (alerts d2))%nat
  /\ (Counts.expired (compCounts d1) <= Counts.expired (compCounts d2))%nat.
Proof.
  intros Hle H1 H2.
  pose proof (deriveFrom_moves_up h clock1 clock2 ps 0 d1 d2 Hle H1 H2) as HF.
  clear H1 H2.
  induction HF as [| x y d1 d2 Hxy _ [IH1 IH2]]; [split; reflexivity |].
  split; [apply alerts_count_step | apply expired_count_step]; assumption.
Qed.

Lemma alerts_grow_with_time_witness :
  let d1 :=
    [mkDerived p22 (Some "2025-03-15T00:00:00.000Z") valid (Some (Num 10));
     mkDerived p25 (Some "2026-04-10T00:00:00.000Z") valid (Some (Num 23));
     mkDerived p27 None compliant None] in
  let d2 :=
    [mkDerived p22 (Some "2025-03-15T00:00:00.000Z") expired (Some (Num 0));
     mkDerived p25 (Some "2026-04-10T00:00:00.000Z") valid (Some (Num 12));
     mkDerived p27 None compliant None] in
  (List.length (alerts d1) <= List.length (alerts d2))%nat
  /\ (Counts.expired (compCounts d1) <= Counts.expired (compCounts d2))%nat.
Proof.
  intros d1 d2.
  assert (Hle : forall k : nat,
             (fun _ => midnight 2024 6 1) k <= (fun _ => midnight 2025 4 1) k)
    by (intros _; vm_compute; discriminate).
  assert (H1 : derived utcHost (fun _ => midnight 2024 6 1) [p22; p25; p27]
               = Normal d1) by (vm_compute; reflexivity).
  assert (H2 : derived utcHost (fun _ => midnight 2025 4 1) [p22; p25; p27]
               = Normal d2) by (vm_compute; reflexivity).
  exact (alerts_grow_with_time utcHost _ _ _ d1 d2 Hle H1 H2).
Defined.

(** X8.  The project selected at the start is the first one in the list,
    also when its id is empty; with no projects nothing is selected. *)
Theorem first_project_is_active (h : Host) (clock : nat -> Z)
  (ps : list Project) (d : list ProjectWithDerived) :
  derived h clock ps = Normal d ->
  activeProject d (initialActiveProjectId ps) = hd_error d
  /\ (ps = [] <-> activeProject d (initialActiveProjectId ps) = None).
Proof.
  intros H. pose proof (derived_carries_projects h clock ps d H) as [Hm _].
  destruct d as [| r d]; destruct ps as [| p ps]; try discriminate.
  - split; [reflexivity | tauto].
  - cbn in Hm. injection Hm as Hp _.
    assert (Ha : activeProject (r :: d) (initialActiveProjectId (p :: ps))
                 = Some r).
    { unfold activeProject, initialActiveProjectId. cbn [find]. rewrite Hp.
      destruct (String.eqb_spec (id p) EmptyString) as [E | E].
      - rewrite E. reflexivity.
      - rewrite String.eqb_refl. reflexivity. }
    rewrite Ha. split; [reflexivity |]. split; intros; discriminate.
Qed.

Lemma first_project_is_active_witness :
  let d :=
    [mkDerived p22 (Some "2025-03-15T00:00:00.000Z") expiring (Some (Num 2));
     mkDerived p25 (Some "2026-04-10T00:00:00.000Z") valid (Some (Num 15));
     mkDerived p27 None compliant None] in
  derived utcHost (fun _ => midnight 2025 1 1) [p22; p25; p27] = Normal d
  /\ activeProject d (initialActiveProjectId [p22; p25; p27]) = hd_error d.
Proof.
  intros d.
  assert (H : derived utcHost (fun _ => midnight 2025 1 1) [p22; p25; p27]
              = Normal d) by (vm_compute; reflexivity).
  split; [exact H |].
  exact (proj1 (first_project_is_active utcHost _ _ d H)).
Defined.

End Panel.

(** * addMonths on its own *)

Module AddMonths.
Import ES ESFacts MonthFacts Evaluator.

Lemma newDate_calendar (t mo : Z) :
  Civil.of_time (newDate t (MonthFromTime t + mo))
  = Civil.plusMonths (Civil.of_time t) mo
  /\ TimeWithinDay (newDate t (MonthFromTime t + mo)) = TimeWithinDay t.
Proof.
  pose proof (of_time_valid t) as [_ Hd]. cbn in Hd.
  pose proof (DaysInMonth_range (YearFromTime t) (MonthFromTime t)) as Hr.
  pose proof (TimeWithinDay_range t) as Htw.
  unfold newDate. split.
  - apply MakeDay_plusMonths; [lia | exact Htw].
  - apply Day_MakeDate, Htw.
Qed.

(** X9.  In a zone where local times convert to UTC and back unchanged
    (any zone at a fixed offset), for any number of months, negative
    ones too, a valid result of [addMonths] has as its local calendar
    date the local date of the argument moved by that many months, the
    day rolling into the following month when the target month is too
    short, and the same local time of day. *)
Theorem addMonths_any_count (h : Host) (t n e : Z) :
  (forall x, LocalTime h (UTC h x) = x) ->
  addMonths h (Num t) n = Num e ->
  Civil.of_time (LocalTime h e)
  = Civil.plusMonths (Civil.of_time (LocalTime h t)) n
  /\ TimeWithinDay (LocalTime h e) = TimeWithinDay (LocalTime h t).
Proof.
  intros Hz H. rewrite addMonths_Num in H. apply TimeClip_Num in H.
  rewrite <- H, Hz. apply newDate_calendar.
Qed.

Lemma addMonths_any_count_witness :
  let h := fixedHost (-8 * msPerHour) in
  ((forall x, LocalTime h (UTC h x) = x)
   /\ addMonths h (Num (midnight 2024 4 1)) (-1) = Num (midnight 2024 3 3))
  /\ Civil.of_time (LocalTime h (midnight 2024 3 3))
     = Civil.plusMonths (Civil.of_time (LocalTime h (midnight 2024 4 1))) (-1)
  /\ Civil.plusMonths (Civil.of_time (LocalTime h (midnight 2024 4 1))) (-1)
     = Civil.mkdate 2024 2 2.
Proof.
  intros h.
  assert (Hz : forall x, LocalTime h (UTC h x) = x)
    by (intros x; unfold LocalTime, UTC; cbn; lia).
  assert (H : addMonths h (Num (midnight 2024 4 1)) (-1)
              = Num (midnight 2024 3 3)) by (vm_compute; reflexivity).
  split; [exact (conj Hz H) |].
  split; [| vm_compute; reflexivity].
  exact (proj1 (addMonths_any_count h _ _ _ Hz H)).
Defined.

(** X10.  Adding no months gives the date back, in a zone where the time [t]
    survives the trip to local time and back. *)
Theorem addMonths_zero (h : Host) (t : Z) :
  UTC h (LocalTime h t) = t ->
  addMonths h (Num t) 0 = TimeClip t.
Proof.
  intros Hz. rewrite addMonths_Num. f_equal.
  unfold newDate. rewrite Z.add_0_r, <- Day_as_MakeDay, MakeDate_Day.
  exact Hz.
Qed.

Lemma addMonths_zero_witness :
  UTC (fixedHost (-8 * msPerHour))
    (LocalTime (fixedHost (-8 * msPerHour)) (midnight 2024 3 1))
  = midnight 2024 3 1
  /\ addMonths (fixedHost (-8 * msPerHour)) (Num (midnight 2024 3 1)) 0
     = TimeClip (midnight 2024 3 1).
Proof.
  assert (H : UTC (fixedHost (-8 * msPerHour))
                (LocalTime (fixedHost (-8 * msPerHour)) (midnight 2024 3 1))
              = midnight 2024 3 1) by reflexivity.
  split; [exact H |].
  exact (addMonths_zero (fixedHost (-8 * msPerHour)) (midnight 2024 3 1) H).
Defined.

Lemma MakeDay_carry (y k b d : Z) :
  MakeDay (y + k / 12) (k mod 12 + b) d = MakeDay y (k + b) d.
Proof.
  unfold MakeDay.
  replace (y + k / 12 + (k mod 12 + b) / 12) with (y + (k + b) / 12)
    by (Z.div_mod_to_equations; lia).
  replace ((k mod 12 + b) mod 12) with ((k + b) mod 12)
    by (Z.div_mod_to_equations; lia).
  reflexivity.
Qed.

Lemma newDate_fields (t mo : Z) :
  DateFromTime t <= 28 ->
  YearFromTime (newDate t mo) = YearFromTime t + mo / 12
  /\ MonthFromTime (newDate t mo) = mo mod 12
  /\ DateFromTime (newDate t mo) = DateFromTime t
  /\ TimeWithinDay (newDate t mo) = TimeWithinDay t.
Proof.
  intros Hd.
  pose proof (of_time_valid t) as [_ Hv]. cbn in Hv.
  pose proof (DaysInMonth_range (YearFromTime t + mo / 12) (mo mod 12)) as Hr.
  pose proof (TimeWithinDay_range t) as Htw.
  assert (Hm : 0 <= mo mod 12 < 12) by (apply Z.mod_pos_bound; lia).
  unfold newDate.
  destruct (Day_MakeDate (MakeDay (YearFromTime t) mo (DateFromTime t))
              (TimeWithinDay t) Htw) as [Hday Htime].
  destruct (fields_of_day
              (MakeDate (MakeDay (YearFromTime t) mo (DateFromTime t))
                 (TimeWithinDay t))
              (YearFromTime t + mo / 12) (mo mod 12) (DateFromTime t))
    as (Hy & Hmo & Hdt); [lia | lia | rewrite Hday; reflexivity |].
  repeat split; assumption.
Qed.

(** X11.  Two additions in a row are one addition of the sum when the local
    day of the month is at most 28, so that no month is too short for
    it, in a zone where local times convert back and forth unchanged. *)
Theorem addMonths_twice (h : Host) (t a b t1 : Z) :
  (forall x, LocalTime h (UTC h x) = x) ->
  DateFromTime (LocalTime h t) <= 28 ->
  addMonths h (Num t) a = Num t1 ->
  addMonths h (Num t1) b = addMonths h (Num t) (a + b).
Proof.
  intros Hz Hd H1. rewrite addMonths_Num in H1. apply TimeClip_Num in H1.
  rewrite !addMonths_Num. do 2 f_equal.
  remember (LocalTime h t) as lt eqn:Elt.
  assert (Hl1 : LocalTime h t1 = newDate lt (MonthFromTime lt + a))
    by (rewrite <- H1; apply Hz).
  rewrite Hl1.
  destruct (newDate_fields lt (MonthFromTime lt + a) Hd)
    as (Hy & Hm & Hday & Htw).
  remember (newDate lt (MonthFromTime lt + a)) as l1 eqn:El1.
  unfold newDate. rewrite Hy, Hm, Hday, Htw, MakeDay_carry.
  do 2 f_equal. lia.
Qed.

Lemma addMonths_twice_witness :
  ((forall x, LocalTime utcHost (UTC utcHost x) = x)
   /\ DateFromTime (LocalTime utcHost (midnight 2022 3 15)) <= 28
   /\ addMonths utcHost (Num (midnight 2022 3 15)) 36
      = Num (midnight 2025 3 15))
  /\ addMonths utcHost (Num (midnight 2025 3 15)) 15
     = addMonths utcHost (Num (midnight 2022 3 15)) (36 + 15).
Proof.
  assert (Hz : forall x, LocalTime utcHost (UTC utcHost x) = x)
    by (intros x; unfold LocalTime, UTC; cbn; lia).
  assert (Hd : DateFromTime (LocalTime utcHost (midnight 2022 3 15)) <= 28)
    by (vm_compute; discriminate).
  assert (H1 : addMonths utcHost (Num (midnight 2022 3 15)) 36
               = Num (midnight 2025 3 15)) by (vm_compute; reflexivity).
  split; [auto |].
  exact (addMonths_twice utcHost _ 36 15 _ Hz Hd H1).
Defined.

End AddMonths.

(** * The floor: scenes, totals, crew *)

Module Floor.
Import ADXSplash.

Local Open Scope string_scope.
Local Open Scope Z_scope.

Lemma values_ext (a b : Stations) : sameState a b -> values a = values b.
Proof.
  intros H. unfold values. apply map_ext. intros s. apply H.
Qed.

Lemma fold_wip_shift (l : list StationState) (a : Z) :
  fold_left (fun a b => a + wip b) l a
  = a + fold_left (fun a b => a + wip b) l 0.
Proof.
  revert a. induction l as [| x l IH]; intros a; cbn [fold_left]; [lia |].
  rewrite (IH (a + wip x)), (IH (0 + wip x)). lia.
Qed.

Lemma wip_total_map (f g : StationId -> StationState)
  (l : list (StationId * string)) :
  (forall k, wip (f k) = wip (g k)) ->
  fold_left (fun a b => a + wip b) (map (fun s => f (fst s)) l) 0
  = fold_left (fun a b => a + wip b) (map (fun s => g (fst s)) l) 0.
Proof.
  intros H. induction l as [| x l IH]; [reflexivity |].
  cbn [map fold_left].
  rewrite (fold_wip_shift _ (0 + wip (f (fst x)))),
          (fold_wip_shift _ (0 + wip (g (fst x)))), IH, H.
  reflexivity.
Qed.

Lemma scene_cases (which : string) (st : Stations) :
  exists upd,
    sameState (fst (triggerScene which st)) (applyToAll upd st)
    /\ Partial.locked upd = None /\ Partial.crew upd = None
    /\ Partial.oee upd = None /\ Partial.wip upd = None.
Proof.
  unfold triggerScene.
  destruct (String.eqb which "start");
    [eexists; split; [intros k; reflexivity | repeat split] |].
  destruct (String.eqb which "lunch");
    [eexists; split; [intros k; reflexivity | repeat split] |].
  destruct (String.eqb which "evac");
    [eexists; split; [intros k; reflexivity | repeat split] |].
  destruct (String.eqb which "alloff");
    [eexists; split; [intros k; reflexivity | repeat split] |].
  exists (Partial.mk None None None None None None None None).
  split; [| repeat split].
  intros k. cbn [fst]. unfold applyToAll, spread. cbn. destruct (st k); reflexivity.
Qed.

(** X14.  No scene, known or not, touches the lock, the seeded crew figure,
    the OEE or the work in progress of any station; the WIP total on the
    dashboard is the same before and after. *)
Theorem scenes_keep_wip (which : string) (st : Stations)
  (emps : list Employee.t) :
  (forall k,
     locked (fst (triggerScene which st) k) = locked (st k)
     /\ crew (fst (triggerScene which st) k) = crew (st k)
     /\ oee (fst (triggerScene which st) k) = oee (st k)
     /\ wip (fst (triggerScene which st) k) = wip (st k))
  /\ Totals.wip (totals (fst (triggerScene which st)) emps)
     = Totals.wip (totals st emps).
Proof.
  destruct (scene_cases which st) as (upd & Hs & Hl & Hc & Ho & Hw).
  assert (Hk : forall k,
     locked (fst (triggerScene which st) k) = locked (st k)
     /\ crew (fst (triggerScene which st) k) = crew (st k)
     /\ oee (fst (triggerScene which st) k) = oee (st k)
     /\ wip (fst (triggerScene which st) k) = wip (st k)).
  { intros k. rewrite (Hs k). unfold applyToAll, spread.
    cbn [locked crew oee wip]. rewrite Hl, Hc, Ho, Hw. repeat split. }
  split; [exact Hk |].
  unfold totals, values. cbn [Totals.wip].
  apply wip_total_map. intros k. apply Hk.
Qed.

Lemma powered_same (a b : Stations) :
  (forall k, power (a k) = power (b k)) ->
  List.length (filter (fun s => power s) (values a))
  = List.length (filter (fun s => power s) (values b)).
Proof.
  intros H. unfold values.
  induction DEFAULT_STATIONS as [| x l IH]; [reflexivity |].
  cbn [map filter]. rewrite (H (fst x)).
  destruct (power (b (fst x))); cbn [List.length]; rewrite IH; reflexivity.
Qed.

(** X15.  What each scene does to the floor; the flag says whether the
    call made a call of [pause()].  "evac" leaves no station powered,
    lights and fans at 0, every station on alert and every tile in the
    warning colour, and calls [pause()].  "alloff" does the same with
    no alert and every tile in the idle colour.  "start" powers all
    eleven stations, with no alert, and does not call [pause()] (nor
    does it start the audio again).  "lunch" and an unknown scene name
    leave power and alerts, and so the number of stations online, as
    they were, and do not call [pause()] either. *)
Theorem scene_effects (st : Stations) (emps : list Employee.t) :
  (let (st', pauseCalled) := triggerScene "evac" st in
   pauseCalled = true
   /\ Totals.powered (totals st' emps) = 0%nat
   /\ forall k, lux (st' k) = 0 /\ fan (st' k) = 0 /\ alert (st' k) = true
                /\ tileColor (power (st' k)) (alert (st' k))
                   = tileColor false true)
  /\ (let (st', pauseCalled) := triggerScene "alloff" st in
      pauseCalled = true
      /\ Totals.powered (totals st' emps) = 0%nat
      /\ forall k, lux (st' k) = 0 /\ fan (st' k) = 0 /\ alert (st' k) = false
                   /\ tileColor (power (st' k)) (alert (st' k))
                      = tileColor false false)
  /\ (let (st', pauseCalled) := triggerScene "start" st in
      pauseCalled = false
      /\ Totals.powered (totals st' emps) = List.length DEFAULT_STATIONS
      /\ forall k, lux (st' k) = 70 /\ fan (st' k) = 40
                   /\ alert (st' k) = false /\ power (st' k) = true)
  /\ (forall which,
        which <> "start" -> which <> "evac" -> which <> "alloff" ->
        let (st', pauseCalled) := triggerScene which st in
        pauseCalled = false
        /\ Totals.powered (totals st' emps) = Totals.powered (totals st emps)
        /\ forall k, power (st' k) = power (st k)
                     /\ alert (st' k) = alert (st k)).
Proof.
  split; [| split; [| split]].
  - cbn. repeat split.
  - cbn. repeat split.
  - cbn. repeat split.
  - intros which H1 H2 H3. unfold triggerScene.
    apply String.eqb_neq in H1, H2, H3. rewrite H1, H2, H3.
    destruct (String.eqb which "lunch").
    + split; [reflexivity |].
      split; [apply powered_same; reflexivity |].
      intros k. split; reflexivity.
    + split; [reflexivity |]. split; [reflexivity |].
      intros k. split; reflexivity.
Qed.

(** X16.  The last scene wins: after "start", "evac" or "alloff" the floor is
    the same whatever scene was triggered before it.  "lunch" is not of
    that kind: triggered after "evac" it leaves every alert standing. *)
Theorem last_scene_wins (s1 s2 : string) (st : Stations) :
  s2 = "start" \/ s2 = "evac" \/ s2 = "alloff" ->
  sameState (fst (triggerScene s2 (fst (triggerScene s1 st))))
            (fst (triggerScene s2 st))
  /\ forall k, alert (fst (triggerScene "lunch"
                              (fst (triggerScene "evac" st))) k) = true.
Proof.
  intros H2. split; [| intros k; reflexivity].
  intros k.
  pose proof (scenes_keep_wip s1 st []) as [Hk _].
  destruct (Hk k) as (Hl & Hc & Ho & Hw).
  destruct H2 as [-> | [-> | ->]]; cbn [triggerScene String.eqb Ascii.eqb
    Bool.eqb fst]; unfold applyToAll, spread; cbn [orElse Partial.power
    Partial.lux Partial.fan Partial.locked Partial.alert Partial.crew
    Partial.oee Partial.wip]; rewrite Hl, Hc, Ho, Hw; reflexivity.
Qed.

Lemma last_scene_wins_witness :
  sameState (fst (triggerScene "start" (fst (triggerScene "evac" seedState))))
            (fst (triggerScene "start" seedState))
  /\ forall k, alert (fst (triggerScene "lunch"
                              (fst (triggerScene "evac" seedState))) k) = true.
Proof.
  exact (last_scene_wins "evac" "start" seedState (or_introl eq_refl)).
Defined.

Lemma scene_effects_witness :
  let (st', pauseCalled) := triggerScene "lunch" seedState in
  pauseCalled = false
  /\ Totals.powered (totals st' seedEmployees)
     = Totals.powered (totals seedState seedEmployees)
  /\ forall k, power (st' k) = power (seedState k)
               /\ alert (st' k) = alert (seedState k).
Proof.
  apply (proj2 (proj2 (proj2 (scene_effects seedState seedEmployees)))
           "lunch"); discriminate.
Defined.

Lemma Station_eqb_eq (a b : StationId) : Station.eqb a b = true <-> a = b.
Proof. destruct a, b; cbn; split; intros H; try reflexivity; discriminate. Qed.

Lemma every_station_listed (k : StationId) : In k (map fst DEFAULT_STATIONS).
Proof. destruct k; cbn; tauto. Qed.

Lemma stations_listed_once : NoDup (map fst DEFAULT_STATIONS).
Proof.
  cbn. repeat constructor; cbn; intros H;
    repeat (destruct H as [H | H]; [discriminate |]); exact H.
Qed.

Lemma powered_update_absent (id : StationId) (data : Partial.StationState)
  (st : Stations) (l : list StationId) :
  ~ In id l ->
  filter (fun s => power s) (map (updateStation id data st) l)
  = filter (fun s => power s) (map st l).
Proof.
  intros Hn. induction l as [| x l IH]; [reflexivity |].
  cbn [map filter].
  assert (Hx : updateStation id data st x = st x).
  { unfold updateStation. destruct (Station.eqb x id) eqn:E; [| reflexivity].
    apply Station_eqb_eq in E. subst x. exfalso. apply Hn. left. reflexivity. }
  rewrite Hx, IH; [reflexivity |]. intros H. apply Hn. right. exact H.
Qed.

Lemma powered_update_present (id : StationId) (data : Partial.StationState)
  (st : Stations) (l : list StationId) :
  NoDup l -> In id l ->
  Z.of_nat (List.length
              (filter (fun s => power s) (map (updateStation id data st) l)))
  = Z.of_nat (List.length (filter (fun s => power s) (map st l)))
    + b2z (power (spread (st id) data)) - b2z (power (st id)).
Proof.
  intros Hnd Hin. induction l as [| x l IH]; [destruct Hin |].
  inversion Hnd as [| ? ? Hx Hl]; subst.
  cbn [map filter].
  destruct (Station.eqb x id) eqn:E.
  - apply Station_eqb_eq in E. subst x.
    assert (Hs : updateStation id data st id = spread (st id) data).
    { unfold updateStation.
      replace (Station.eqb id id) with true; [reflexivity |].
      symmetry. apply Station_eqb_eq. reflexivity. }
    rewrite Hs, (powered_update_absent id data st l Hx).
    destruct (power (spread (st id) data)), (power (st id));
      cbn [List.length b2z]; lia.
  - assert (Hs : updateStation id data st x = st x)
      by (unfold updateStation; rewrite E; reflexivity).
    rewrite Hs.
    destruct Hin as [-> | Hin].
    + assert (Station.eqb id id = true) by (apply Station_eqb_eq; reflexivity).
      congruence.
    + specialize (IH Hl Hin).
      destruct (power (st x)); cbn [List.length]; lia.
Qed.

(** X17.  A change to one station moves the "stations online" figure by that
    station alone: switching an unpowered station on adds one, switching
    a powered one off takes one away, and any change that leaves the
    station's power alone leaves the figure alone. *)
Theorem updateStation_powered (id : StationId) (data : Partial.StationState)
  (st : Stations) (emps : list Employee.t) :
  Z.of_nat (Totals.powered (totals (updateStation id data st) emps))
  = Z.of_nat (Totals.powered (totals st emps))
    + b2z (orElse (Partial.power data) (power (st id)))
    - b2z (power (st id)).
Proof.
  unfold totals, values. cbn [Totals.powered].
  rewrite <- !(map_map fst).
  apply (powered_update_present id data st (map fst DEFAULT_STATIONS)).
  - apply stations_listed_once.
  - apply every_station_listed.
Qed.

(** *** Crew *)

Lemma clockOutFrom_off (now : nat -> Z) (e : list Employee.t) (i : nat)
  (f : Employee.t -> bool) :
  (forall x, f x = true -> Employee.onFloor x = true) ->
  filter f (clockOutFrom now i e) = [].
Proof.
  intros Hf. revert i. induction e as [| x e IH]; intros i; [reflexivity |].
  cbn [clockOutFrom filter]. rewrite IH.
  destruct (f _) eqn:E; [| reflexivity].
  apply Hf in E. discriminate.
Qed.

Lemma clockOutFrom_nth (now : nat -> Z) (e : list Employee.t) (i k : nat)
  (x : Employee.t) :
  nth_error e k = Some x ->
  nth_error (clockOutFrom now i e) k
  = Some (Employee.mk (Employee.id x) (Employee.name x) (Employee.role x)
            false None
            (Employee.clockEvents x
               ++ [ClockEvent.mk (now (i + k)%nat) clock_out])%list).
Proof.
  revert i k. induction e as [| y e IH]; intros i k H.
  - destruct k; discriminate.
  - destruct k as [| k]; cbn in H |- *.
    + injection H as ->. rewrite Nat.add_0_r. reflexivity.
    + rewrite (IH (S i) k H). rewrite Nat.add_succ_r. reflexivity.
Qed.

Lemma clockOutFrom_length (now : nat -> Z) (e : list Employee.t) (i : nat) :
  List.length (clockOutFrom now i e) = List.length e.
Proof.
  revert i. induction e as [| x e IH]; intros i; cbn; [| rewrite IH];
    reflexivity.
Qed.

(** X18.  After "Clock out all" nobody is on the floor and no station has
    crew; nobody is dropped from the list, and each employee keeps id,
    name, role and past clock events and gains exactly one event, an
    "out" stamped with the time read for that employee. *)
Theorem clockOutAll_clears (now : nat -> Z) (st : Stations)
  (emps : list Employee.t) :
  Totals.crew (totals st (clockOutAll now emps)) = 0%nat
  /\ (forall id, crewForStation id (clockOutAll now emps) = 0%nat)
  /\ List.length (clockOutAll now emps) = List.length emps
  /\ forall k x,
       nth_error emps k = Some x ->
       nth_error (clockOutAll now emps) k
       = Some (Employee.mk (Employee.id x) (Employee.name x)
                 (Employee.role x) false None
                 (Employee.clockEvents x
                    ++ [ClockEvent.mk (now k) clock_out])%list).
Proof.
  unfold clockOutAll. repeat split.
  - unfold totals. cbn [Totals.crew].
    rewrite clockOutFrom_off; [reflexivity | auto].
  - intros id. unfold crewForStation.
    rewrite clockOutFrom_off; [reflexivity |].
    intros x H. unfold onPost in H. apply andb_true_iff in H. apply H.
  - apply clockOutFrom_length.
  - intros k x H. apply (clockOutFrom_nth now emps 0 k x H).
Qed.

Lemma clockOutAll_clears_witness :
  nth_error seedEmployees 1
  = Some (Employee.mk "1002" "Bri" "QC" true (Some Station.qa) [])
  /\ nth_error (clockOutAll (fun k => 1700000000000 + Z.of_nat k)
                  seedEmployees) 1
     = Some (Employee.mk "1002" "Bri" "QC" false None
               [ClockEvent.mk 1700000000001 clock_out]).
Proof.
  assert (H : nth_error seedEmployees 1
              = Some (Employee.mk "1002" "Bri" "QC" true (Some Station.qa) []))
    by reflexivity.
  split; [exact H |].
  exact (proj2 (proj2 (proj2
    (clockOutAll_clears (fun k => 1700000000000 + Z.of_nat k) seedState
       seedEmployees))) 1%nat _ H).
Defined.

(** X19.  Clocking someone in adds one to the crew on the floor and one to the
    crew of the chosen station, and to no other station; the employees
    already listed are untouched, the newcomer is on the floor with one
    "in" event and is named "Worker <id>" when no name was typed; the
    dialog closes with the name field cleared. *)
Theorem clockIn_adds (rid : string) (now : Z) (m : ClockModal)
  (st : Stations) (emps : list Employee.t) :
  let (emps', m') := clockIn rid now m emps in
  Totals.crew (totals st emps') = S (Totals.crew (totals st emps))
  /\ (forall id,
        crewForStation id emps'
        = if Station.eqb (clockStation m) id
          then S (crewForStation id emps) else crewForStation id emps)
  /\ (exists x,
        emps' = (emps ++ [x])%list
        /\ Employee.id x = rid
        /\ Employee.onFloor x = true
        /\ Employee.clockEvents x = [ClockEvent.mk now clock_in]
        /\ (clockName m = EmptyString -> Employee.name x = "Worker " ++ rid)
        /\ (clockName m <> EmptyString -> Employee.name x = clockName m))
  /\ clockOpen m' = false
  /\ clockName m' = EmptyString.
Proof.
  unfold clockIn. split; [| split; [| split; [| split; reflexivity]]].
  - unfold totals. cbn [Totals.crew].
    rewrite filter_app, length_app. cbn. lia.
  - intros id. unfold crewForStation.
    rewrite filter_app, length_app. cbn [filter onPost Employee.onFloor
      Employee.stationId andb].
    destruct (Station.eqb (clockStation m) id); cbn; lia.
  - eexists. split; [reflexivity |]. cbn.
    repeat split; intros H.
    + rewrite H. reflexivity.
    + apply String.eqb_neq in H. rewrite H. reflexivity.
Qed.

Lemma clockIn_adds_witness :
  let (emps', m') :=
    clockIn "k3x9aa" 1700000000000 (mkClockModal true EmptyString Station.dock)
      seedEmployees in
  Totals.crew (totals seedState emps') = 3%nat
  /\ crewForStation Station.dock emps' = 1%nat
  /\ crewForStation Station.qa emps' = 1%nat.
Proof.
  pose proof (clockIn_adds "k3x9aa" 1700000000000
                (mkClockModal true EmptyString Station.dock)
                seedState seedEmployees) as H.
  cbn [clockIn] in H |- *. destruct H as (H1 & H2 & _).
  split; [exact H1 |].
  split; [exact (H2 Station.dock) | exact (H2 Station.qa)].
Defined.

Lemma list_sum_map_add {A : Type} (f g : A -> nat) (l : list A) :
  list_sum (map (fun a => (f a + g a)%nat) l)
  = (list_sum (map f l) + list_sum (map g l))%nat.
Proof.
  unfold list_sum. induction l as [| a l IH]; cbn [map fold_right]; lia.
Qed.

Lemma one_station_each (x : Employee.t) :
  list_sum (map (fun s => if onPost (fst s) x then 1%nat else 0%nat)
              DEFAULT_STATIONS)
  = if Employee.onFloor x
       && match Employee.stationId x with Some _ => true | None => false end
    then 1%nat else 0%nat.
Proof.
  unfold onPost. destruct (Employee.onFloor x); [| reflexivity].
  destruct (Employee.stationId x) as [[] |]; reflexivity.
Qed.

Lemma crew_sum (emps : list Employee.t) :
  list_sum (map (fun s => crewForStation (fst s) emps) DEFAULT_STATIONS)
  = List.length
      (filter (fun x => Employee.onFloor x
                        && match Employee.stationId x with
                           | Some _ => true
                           | None => false
                           end) emps).
Proof.
  induction emps as [| x emps IH].
  - reflexivity.
  - transitivity
      (list_sum (map (fun s => ((if onPost (fst s) x then 1 else 0)
                                + crewForStation (fst s) emps)%nat)
                   DEFAULT_STATIONS)).
    + f_equal. apply map_ext. intros s. unfold crewForStation.
      cbn [filter]. destruct (onPost (fst s) x); reflexivity.
    + rewrite (list_sum_map_add
                 (fun s => if onPost (fst s) x then 1%nat else 0%nat)
                 (fun s => crewForStation (fst s) emps)).
      rewrite one_station_each, IH. cbn [filter].
      destruct (_ && _); reflexivity.
Qed.

Lemma crewReachable_posted (emps : list Employee.t) :
  crewReachable emps ->
  Forall (fun x => Employee.onFloor x = true -> Employee.stationId x <> None)
    emps.
Proof.
  induction 1 as [| rid now m e _ IH | now e _ IH].
  - repeat constructor; discriminate.
  - cbn. apply Forall_app. split; [exact IH |].
    constructor; [discriminate | constructor].
  - unfold clockOutAll. generalize 0%nat. clear IH.
    induction e as [| x e IHe]; intros i; cbn; constructor;
      [discriminate | apply IHe].
Qed.

(** X20.  However the crew list came about from the seed crew by clocking in
    and clocking everybody out, the crews of the eleven stations add up
    to the crew on the floor: nobody on the floor is without a station
    and nobody is counted at two. *)
Theorem station_crews_add_up (st : Stations) (emps : list Employee.t) :
  crewReachable emps ->
  list_sum (map (fun s => crewForStation (fst s) emps) DEFAULT_STATIONS)
  = Totals.crew (totals st emps).
Proof.
  intros H. apply crewReachable_posted in H.
  rewrite crew_sum. unfold totals. cbn [Totals.crew].
  induction H as [| x emps Hx _ IH]; [reflexivity |].
  cbn [filter]. destruct (Employee.onFloor x); [| exact IH].
  destruct (Employee.stationId x); [| exfalso; apply Hx; reflexivity].
  cbn. rewrite IH. reflexivity.
Qed.

Lemma station_crews_add_up_witness :
  let emps :=
    fst (clockIn "k3x9aa" 1700000000000
           (mkClockModal true "Cy" Station.dock)
           (clockOutAll (fun _ => 1690000000000) seedEmployees)) in
  crewReachable emps
  /\ list_sum (map (fun s => crewForStation (fst s) emps) DEFAULT_STATIONS)
     = Totals.crew (totals seedState emps).
Proof.
  intros emps.
  assert (H : crewReachable emps)
    by (apply crew_clockIn, crew_clockOutAll, crew_seed).
  split; [exact H |].
  exact (station_crews_add_up seedState emps H).
Defined.

End Floor.

(** * The lift mock, the playlist, the add-project dialog, the bar *)

Module Widgets.
Import ADXSplash Evaluator Panel.

Local Open Scope string_scope.
Local Open Scope Z_scope.

(** X21.  One tick of the lift timer puts bay and shelf inside 1..24 and 1..8
    from any non-negative values, never yields the ERROR state, and
    leaves the queue and the door lock alone. *)
Theorem vlmTick_in_range (v : Vlm) :
  0 <= bay v -> 0 <= shelf v ->
  1 <= bay (vlmTick v) <= 24
  /\ 1 <= shelf (vlmTick v) <= 8
  /\ state (vlmTick v) <> ERROR
  /\ queue (vlmTick v) = queue v
  /\ doorLocked (vlmTick v) = doorLocked v.
Proof.
  intros Hb Hs. unfold vlmTick. cbn [bay shelf state queue doorLocked].
  pose proof (Z.rem_bound_pos (bay v) 24 Hb ltac:(lia)).
  pose proof (Z.rem_bound_pos (shelf v) 8 Hs ltac:(lia)).
  repeat split; try lia. destruct (state v); discriminate.
Qed.

Lemma vlmTick_in_range_witness :
  (0 <= bay vlmSeed /\ 0 <= shelf vlmSeed)
  /\ 1 <= bay (vlmTick vlmSeed) <= 24
  /\ 1 <= shelf (vlmTick vlmSeed) <= 8
  /\ state (vlmTick vlmSeed) <> ERROR
  /\ queue (vlmTick vlmSeed) = queue vlmSeed
  /\ doorLocked (vlmTick vlmSeed) = doorLocked vlmSeed.
Proof.
  assert (H1 : 0 <= bay vlmSeed) by (cbn; lia).
  assert (H2 : 0 <= shelf vlmSeed) by (cbn; lia).
  split; [split; assumption |].
  exact (vlmTick_in_range vlmSeed H1 H2).
Defined.

Lemma vlm_after (n : nat) (v : Vlm) :
  1 <= bay v <= 24 -> 1 <= shelf v <= 8 -> state v <> ERROR ->
  Nat.iter n vlmTick v
  = mkVlm (if Nat.even n then state v
           else match state v with MOVING => IDLE | _ => MOVING end)
          ((bay v - 1 + Z.of_nat n) mod 24 + 1)
          ((shelf v - 1 + Z.of_nat n) mod 8 + 1)
          (queue v) (doorLocked v).
Proof.
  intros Hb Hs Hst. induction n as [| n IH].
  - destruct v as [s b sh q d]. cbn [Nat.even bay shelf state queue
      doorLocked Z.of_nat] in *.
    change (Nat.iter 0 vlmTick (mkVlm s b sh q d)) with (mkVlm s b sh q d).
    f_equal; Z.div_mod_to_equations; lia.
  - rewrite Nat.iter_succ, IH. unfold vlmTick.
    cbn [bay shelf state queue doorLocked].
    rewrite !Z.rem_mod_nonneg by (Z.div_mod_to_equations; lia).
    rewrite Nat.even_succ, <- Nat.negb_even, Nat2Z.inj_succ.
    f_equal.
    + destruct (Nat.even n), (state v); cbn; congruence.
    + Z.div_mod_to_equations; lia.
    + Z.div_mod_to_equations; lia.
Qed.

(** X22.  The lift mock runs in a cycle of 24 ticks: from a state with bay in
    1..24, shelf in 1..8 and not in ERROR, 24 ticks lead back to the
    very same state. *)
Theorem vlm_cycle (v : Vlm) :
  1 <= bay v <= 24 -> 1 <= shelf v <= 8 -> state v <> ERROR ->
  Nat.iter 24 vlmTick v = v.
Proof.
  intros Hb Hs Hst. rewrite (vlm_after 24 v Hb Hs Hst).
  destruct v as [s b sh q d]. cbn [bay shelf state queue doorLocked Nat.even] in *.
  change (Z.of_nat 24) with 24.
  f_equal; Z.div_mod_to_equations; lia.
Qed.

Lemma vlm_cycle_witness :
  (1 <= bay vlmSeed <= 24 /\ 1 <= shelf vlmSeed <= 8 /\ state vlmSeed <> ERROR)
  /\ Nat.iter 24 vlmTick vlmSeed = vlmSeed.
Proof.
  assert (H1 : 1 <= bay vlmSeed <= 24) by (cbn; lia).
  assert (H2 : 1 <= shelf vlmSeed <= 8) by (cbn; lia).
  assert (H3 : state vlmSeed <> ERROR) by discriminate.
  split; [auto |].
  exact (vlm_cycle vlmSeed H1 H2 H3).
Defined.

(** X23.  The player never runs off the playlist: starting from track 0, after
    any number of presses on "next" the track index names a file of the
    playlist. *)
Theorem next_stays_on_playlist (n : nat) :
  0 <= Nat.iter n next 0 < Z.of_nat (List.length playlist)
  /\ exists src, nth_error playlist (Z.to_nat (Nat.iter n next 0)) = Some src.
Proof.
  assert (H : Nat.iter n next 0 = 0 \/ Nat.iter n next 0 = 1).
  { induction n as [| n IH]; [left; reflexivity |].
    rewrite Nat.iter_succ. destruct IH as [-> | ->]; [right | left];
      reflexivity. }
  destruct H as [-> | ->]; (split; [cbn; lia | eexists; reflexivity]).
Qed.

(** *** Adding a project *)

Lemma addProject_outcome (rid : string) (m : ProjectModal)
  (ps : list Project) :
  (projLabel m = EmptyString \/ projApproval m = EmptyString ->
   addProject rid m ps = (ps, m))
  /\ (projLabel m <> EmptyString -> projApproval m <> EmptyString ->
      addProject rid m ps
      = ((ps ++ [mkProject rid (projLabel m) None (projType m) (projCycle m)
                   (projApproval m)])%list,
         mkProjectModal false EmptyString EmptyString (projType m)
           (projCycle m))).
Proof.
  unfold addProject. split.
  - intros [H | H]; rewrite H; cbn; [| rewrite orb_true_r]; reflexivity.
  - intros H1 H2. apply String.eqb_neq in H1, H2. rewrite H1, H2. reflexivity.
Qed.

Lemma deriveFrom_app (h : Host) (clock : nat -> Z) (ps qs : list Project)
  (i : nat) :
  deriveFrom h clock i (ps ++ qs)%list
  = (d <- deriveFrom h clock i ps ;;
     d' <- deriveFrom h clock (i + List.length ps) qs ;;
     Normal (d ++ d')%list).
Proof.
  revert i. induction ps as [| p ps IH]; intros i; cbn [deriveFrom app].
  - cbn [bind List.length]. rewrite Nat.add_0_r.
    destruct (deriveFrom h clock i qs); reflexivity.
  - destruct (computeCompliance h (clock i) p) as [r |]; [| reflexivity].
    cbn [bind]. rewrite IH. cbn [List.length].
    replace (i + S (List.length ps))%nat with (S i + List.length ps)%nat
      by lia.
    destruct (deriveFrom h clock (S i) ps) as [d |]; [| reflexivity].
    cbn [bind].
    destruct (deriveFrom h clock (S i + List.length ps) qs); reflexivity.
Qed.

Lemma same_dates_at_any_time (h : Host) (c1 c2 : Z) (p : Project)
  (r1 r2 : ProjectWithDerived) :
  computeCompliance h c1 p = Normal r1 ->
  computeCompliance h c2 p = Normal r2 ->
  proj r1 = proj r2 /\ expiresAt r1 = expiresAt r2.
Proof.
  intros H1 H2. apply computeCompliance_returns in H1, H2.
  destruct H1 as [[Hc1 ->] | [Hc1 (e1 & iso1 & He1 & Hs1 & ->)]];
    destruct H2 as [[Hc2 ->] | [Hc2 (e2 & iso2 & He2 & Hs2 & ->)]];
    try contradiction; cbn [proj expiresAt]; [split; reflexivity |].
  assert (e2 = e1) by congruence. subst e2.
  assert (iso2 = iso1) by congruence. subst iso2. split; reflexivity.
Qed.

Lemma deriveFrom_same_dates (h : Host) (clock1 clock2 : nat -> Z)
  (ps : list Project) (i j : nat) (d1 d2 : list ProjectWithDerived) :
  deriveFrom h clock1 i ps = Normal d1 ->
  deriveFrom h clock2 j ps = Normal d2 ->
  map proj d1 = map proj d2 /\ map expiresAt d1 = map expiresAt d2.
Proof.
  revert i j d1 d2.
  induction ps as [| p ps IH]; intros i j d1 d2 H1 H2; cbn in H1, H2.
  - injection H1 as <-. injection H2 as <-. split; reflexivity.
  - destruct (computeCompliance h (clock1 i) p) as [r1 |] eqn:Hr1;
      [| discriminate].
    destruct (computeCompliance h (clock2 j) p) as [r2 |] eqn:Hr2;
      [| discriminate].
    cbn [bind] in H1, H2.
    destruct (deriveFrom h clock1 (S i) ps) as [rs1 |] eqn:E1; [| discriminate].
    destruct (deriveFrom h clock2 (S j) ps) as [rs2 |] eqn:E2; [| discriminate].
    cbn [bind] in H1, H2. injection H1 as <-. injection H2 as <-.
    destruct (IH _ _ _ _ E1 E2) as [IHp IHe].
    destruct (same_dates_at_any_time h _ _ p r1 r2 Hr1 Hr2) as [Hp He].
    cbn [map]. rewrite IHp, IHe, Hp, He. split; reflexivity.
Qed.

(** X24.  With a label and a date that are not empty, [addProject]
    appends one project built from the dialog.  The list is derived
    anew after that, at new clock readings: deriving throws when it
    threw before or the new project has no valid expiry date, and only
    then; and when it returns both before and after, the new list holds
    an entry for each old project, with the same project fields and the
    same [expiresAt] as before, followed by the entry of the new
    project. *)
Theorem addProject_then_derived (h : Host) (clock clock' : nat -> Z)
  (rid : string) (m : ProjectModal) (ps : list Project) :
  projLabel m <> EmptyString -> projApproval m <> EmptyString ->
  let new := mkProject rid (projLabel m) None (projType m) (projCycle m)
               (projApproval m) in
  fst (addProject rid m ps) = (ps ++ [new])%list
  /\ ((exists e, derived h clock' (fst (addProject rid m ps)) = Throw e)
      <-> (exists e, derived h clock ps = Throw e)
          \/ (cycle new <> "post2026" /\ expiry h new = NaN))
  /\ (forall d d',
        derived h clock ps = Normal d ->
        derived h clock' (fst (addProject rid m ps)) = Normal d' ->
        exists d0 r,
          d' = (d0 ++ [r])%list
          /\ proj r = new
          /\ map proj d0 = map proj d
          /\ map expiresAt d0 = map expiresAt d).
Proof.
  intros H1 H2 new.
  rewrite (proj2 (addProject_outcome rid m ps) H1 H2). cbn [fst]. fold new.
  split; [reflexivity |]. split.
  - unfold derived. rewrite !deriveFrom_throws, Exists_app. split.
    + intros [H | H]; [left; exact H |].
      right. inversion H as [? ? Hn | ? ? Hn]; [exact Hn | inversion Hn].
    + intros [H | H]; [left; exact H |]. right. constructor. exact H.
  - intros d d' Hd Hd'. unfold derived in *.
    rewrite deriveFrom_app in Hd'.
    destruct (deriveFrom h clock' 0 ps) as [d0 |] eqn:Hd0; [| discriminate].
    cbn [bind deriveFrom] in Hd'.
    destruct (computeCompliance h (clock' (0 + List.length ps)%nat) new)
      as [r |] eqn:Hr; [| discriminate].
    cbn [bind] in Hd'. injection Hd' as <-.
    exists d0, r. split; [reflexivity |].
    split; [apply (computeCompliance_proj _ _ _ _ Hr) |].
    apply (deriveFrom_same_dates h clock' clock ps 0 0 d0 d Hd0 Hd).
Qed.

Lemma addProject_then_derived_witness :
  let m := mkProjectModal true "Shed" "2024-05-01" "modular" "pre2026" in
  let ps' := fst (addProject "k3x9aa" m [p22; p25; p27]) in
  (projLabel m <> EmptyString /\ projApproval m <> EmptyString
   /\ derived utcHost (fun _ => midnight 2025 1 1) [p22; p25; p27]
      = Normal
          [mkDerived p22 (Some "2025-03-15T00:00:00.000Z") expiring
             (Some (Num 2));
           mkDerived p25 (Some "2026-04-10T00:00:00.000Z") valid
             (Some (Num 15));
           mkDerived p27 None compliant None])
  /\ exists d' d0 r,
       derived utcHost (fun _ => midnight 2025 4 1) ps' = Normal d'
       /\ d' = (d0 ++ [r])%list
       /\ map expiresAt d0
          = [Some "2025-03-15T00:00:00.000Z"; Some "2026-04-10T00:00:00.000Z";
             None].
Proof.
  intros m ps'.
  assert (H1 : projLabel m <> EmptyString) by discriminate.
  assert (H2 : projApproval m <> EmptyString) by discriminate.
  assert (H3 : derived utcHost (fun _ => midnight 2025 1 1) [p22; p25; p27]
      = Normal
          [mkDerived p22 (Some "2025-03-15T00:00:00.000Z") expiring
             (Some (Num 2));
           mkDerived p25 (Some "2026-04-10T00:00:00.000Z") valid
             (Some (Num 15));
           mkDerived p27 None compliant None]) by (vm_compute; reflexivity).
  split; [exact (conj H1 (conj H2 H3)) |].
  destruct (derived utcHost (fun _ => midnight 2025 4 1) ps') as [d' |] eqn:E;
    [| vm_compute in E; discriminate].
  destruct (proj2 (proj2 (addProject_then_derived utcHost
                            (fun _ => midnight 2025 1 1)
                            (fun _ => midnight 2025 4 1)
                            "k3x9aa" m [p22; p25; p27] H1 H2)) _ d' H3 E)
    as (d0 & r & Hd' & _ & _ & He).
  exists d', d0, r. split; [reflexivity |]. split; [exact Hd' | exact He].
Defined.

(** *** The progress bar *)

(** X25.  The bar is never drawn outside 0..100: for every value that is not
    NaN the width is a number between 0 and 100, it is the value itself
    when that lies between 0 and 100, and 0 when no value is passed.
    Only NaN comes out as NaN. *)
Theorem pct_clamped (value : option Progress.num) :
  (Progress.pct value = Progress.NotNum <-> value = Some Progress.NotNum)
  /\ (value <> Some Progress.NotNum ->
      exists q, Progress.pct value = Progress.Fin q
                /\ (0 <= q)%Q /\ (q <= 100)%Q)
  /\ (forall q, value = Some (Progress.Fin q) ->
                (0 <= q)%Q -> (q <= 100)%Q ->
                exists q', Progress.pct value = Progress.Fin q' /\ (q' == q)%Q)
  /\ (value = None -> Progress.pct value = Progress.Fin 0).
Proof.
  unfold Progress.pct, Progress.Math_min, Progress.Math_max, Progress.leb.
  split; [| split; [| split]].
  - destruct value as [[| q | |] |]; cbn;
      try destruct (Qle_bool 0 q) eqn:E0; cbn;
      try destruct (Qle_bool 100 q) eqn:E1; cbn;
      split; intros H; try discriminate; try reflexivity.
  - intros Hn. destruct value as [[| q | |] |]; cbn.
    + exists 0%Q. split; [reflexivity |]. split; [apply Qle_refl | discriminate].
    + destruct (Qle_bool 0 q) eqn:E0; cbn.
      * destruct (Qle_bool 100 q) eqn:E1.
        -- exists 100%Q. split; [reflexivity |].
           split; [discriminate | apply Qle_refl].
        -- exists q. split; [reflexivity |].
           split; [apply Qle_bool_iff; exact E0 |].
           apply Qlt_le_weak, Qnot_le_lt. intros Hc.
           apply Qle_bool_iff in Hc. congruence.
      * exists 0%Q. split; [reflexivity |].
        split; [apply Qle_refl | discriminate].
    + exists 100%Q. split; [reflexivity |].
      split; [discriminate | apply Qle_refl].
    + congruence.
    + exists 0%Q. split; [reflexivity |]. split; [apply Qle_refl | discriminate].
  - intros q -> H0 H100. cbn.
    apply Qle_bool_iff in H0. rewrite H0. cbn.
    destruct (Qle_bool 100 q) eqn:E1.
    + exists 100%Q. split; [reflexivity |].
      apply Qle_antisym; [apply Qle_bool_iff; exact E1 | exact H100].
    + exists q. split; reflexivity.
  - intros ->. reflexivity.
Qed.

Lemma pct_clamped_witness :
  exists q, Progress.pct (Some (Progress.Fin (250 # 1))) = Progress.Fin q
            /\ (0 <= q)%Q /\ (q <= 100)%Q.
Proof.
  apply (proj1 (proj2 (pct_clamped (Some (Progress.Fin (250 # 1)))))).
  discriminate.
Defined.

End Widgets.

(** * Reading back the expiry date *)

Module ReadBack.
Import ES ESFacts MonthFacts Evaluator Panel ADXSplash.

Local Open Scope string_scope.
Local Open Scope Z_scope.

Lemma chars_app (a b : string) : list_ascii_of_string (a ++ b) = (list_ascii_of_string a ++ list_ascii_of_string b)%list.
Proof. induction a as [| c a IH]; cbn; [| rewrite IH]; reflexivity. Qed.

Lemma digit_char (v : Z) :
  0 <= v <= 9 -> digit (ascii_of_nat (48 + Z.to_nat v)) = Some v.
Proof.
  intros H.
  assert (C : v = 0 \/ v = 1 \/ v = 2 \/ v = 3 \/ v = 4 \/ v = 5 \/ v = 6
              \/ v = 7 \/ v = 8 \/ v = 9) by lia.
  repeat (destruct C as [C | C]; [subst v; reflexivity |]).
  subst v; reflexivity.
Qed.

Lemma digits_chars (n : nat) (z : Z) (acc : string) :
  list_ascii_of_string (digits n z acc) = (list_ascii_of_string (pad n z) ++ list_ascii_of_string acc)%list.
Proof.
  unfold pad. revert z acc. induction n as [| n IH]; intros z acc.
  - reflexivity.
  - cbn [digits]. rewrite (IH (z / 10) (String _ acc)).
    rewrite (IH (z / 10) (String _ EmptyString)).
    cbn [list_ascii_of_string]. rewrite <- app_assoc. reflexivity.
Qed.

Lemma pad_succ (n : nat) (z : Z) :
  list_ascii_of_string (pad (S n) z)
  = (list_ascii_of_string (pad n (z / 10)) ++ [ascii_of_nat (48 + Z.to_nat (z mod 10))])%list.
Proof. unfold pad at 1. cbn [digits]. apply digits_chars. Qed.

Lemma pad_length (n : nat) (z : Z) : List.length (list_ascii_of_string (pad n z)) = n.
Proof.
  revert z. induction n as [| n IH]; intros z; [reflexivity |].
  rewrite pad_succ, length_app, IH. cbn. lia.
Qed.

Lemma decimal_app (l1 l2 : list ascii) (a : Z) :
  decimal (l1 ++ l2) a = ISO.andThen (decimal l1 a) (decimal l2).
Proof.
  revert a. induction l1 as [| c l1 IH]; intros a; cbn; [reflexivity |].
  destruct (digit c); [apply IH | reflexivity].
Qed.

Lemma decimal_pad (n : nat) (z a : Z) :
  0 <= z ->
  decimal (list_ascii_of_string (pad n z)) a
  = Some (a * 10 ^ Z.of_nat n + z mod 10 ^ Z.of_nat n).
Proof.
  revert z a. induction n as [| n IH]; intros z a Hz.
  - cbn. rewrite Z.mod_1_r. f_equal. lia.
  - rewrite pad_succ, decimal_app, IH by (apply Z.div_pos; lia).
    cbn [ISO.andThen decimal].
    rewrite digit_char by (pose proof (Z.mod_pos_bound z 10); lia).
    f_equal. rewrite Nat2Z.inj_succ, Z.pow_succ_r by lia.
    rewrite (Z.rem_mul_r z 10 (10 ^ Z.of_nat n)) by lia. lia.
Qed.

Lemma field_pad (n : nat) (z : Z) (rest : list ascii) :
  0 <= z < 10 ^ Z.of_nat n ->
  ISO.field n (list_ascii_of_string (pad n z) ++ rest) = Some (z, rest).
Proof.
  intros Hz. unfold ISO.field.
  pose proof (pad_length n z) as Hl.
  rewrite firstn_app, Hl, Nat.sub_diag, firstn_O, app_nil_r.
  rewrite firstn_all2 by lia. rewrite Hl, Nat.eqb_refl.
  rewrite decimal_pad by lia. cbn [ISO.andThen].
  rewrite Z.mod_small by lia.
  rewrite skipn_app, Hl, Nat.sub_diag, skipn_all2 by lia.
  reflexivity.
Qed.

Lemma sep_head (c : ascii) (l : list ascii) : ISO.sep c (c :: l) = Some l.
Proof. cbn. rewrite Ascii.eqb_refl. reflexivity. Qed.

Lemma year_plain (y : Z) (rest : list ascii) :
  0 <= y <= 9999 ->
  ISO.year (list_ascii_of_string (pad 4 y) ++ rest) = Some (y, rest).
Proof.
  intros Hy. rewrite <- (field_pad 4 y rest) by lia.
  rewrite pad_succ.
  remember (list_ascii_of_string (pad 3 (y / 10))) as l3 eqn:E3.
  rewrite pad_succ in E3. remember (list_ascii_of_string (pad 2 (y / 10 / 10))) as l2 eqn:E2.
  rewrite pad_succ in E2.
  remember (list_ascii_of_string (pad 1 (y / 10 / 10 / 10))) as l1 eqn:E1.
  rewrite pad_succ in E1. cbn [pad digits list_ascii_of_string app] in E1.
  subst l1 l2 l3. cbn [app]. unfold ISO.year.
  set (c := ascii_of_nat (48 + Z.to_nat ((y / 10 / 10 / 10) mod 10))).
  assert (Hc : digit c = Some ((y / 10 / 10 / 10) mod 10))
    by (apply digit_char;
        pose proof (Z.mod_pos_bound (y / 10 / 10 / 10) 10); lia).
  destruct (Ascii.eqb_spec c "+") as [E | _]; [rewrite E in Hc; discriminate |].
  destruct (Ascii.eqb_spec c "-") as [E | _]; [rewrite E in Hc; discriminate |].
  reflexivity.
Qed.

Lemma year_expanded (y : Z) (rest : list ascii) :
  (y < 0 \/ 9999 < y) -> -999999 <= y <= 999999 ->
  ISO.year (list_ascii_of_string ((if y <? 0 then "-" else "+") ++ pad 6 (Z.abs y)) ++ rest)
  = Some (y, rest).
Proof.
  intros Hy Hr. rewrite chars_app. unfold ISO.year.
  destruct (Z.ltb_spec y 0) as [Hn | Hp]; cbn [list_ascii_of_string app].
  - cbn [Ascii.eqb Bool.eqb andb].
    rewrite field_pad by (change (10 ^ Z.of_nat 6) with 1000000; lia).
    cbn [ISO.andThen fst snd].
    destruct (Z.eqb_spec (Z.abs y) 0); [lia |]. f_equal. f_equal. lia.
  - cbn [Ascii.eqb Bool.eqb andb].
    rewrite field_pad by (change (10 ^ Z.of_nat 6) with 1000000; lia).
    f_equal. f_equal. lia.
Qed.

Lemma year_in_range (e : Z) :
  Z.abs e <= 8640000000000000 -> -999999 <= YearFromTime e <= 999999.
Proof.
  intros He. pose proof (YearFromTime_spec e) as [Hlo Hhi].
  assert (Hd : -100000000 <= Day e <= 100000000)
    by (unfold Day, msPerDay; Z.div_mod_to_equations; lia).
  remember (YearFromTime e) as Y eqn:EY. clear EY.
  unfold DayFromYear in *. Z.div_mod_to_equations. lia.
Qed.

Lemma time_of_day (e : Z) :
  TimeWithinDay e
  = HourFromTime e * msPerHour + MinFromTime e * msPerMinute
    + SecFromTime e * msPerSecond + msFromTime e.
Proof.
  unfold TimeWithinDay, HourFromTime, MinFromTime, SecFromTime, msFromTime,
    msPerDay, msPerHour, msPerMinute, msPerSecond.
  Z.div_mod_to_equations. lia.
Qed.

Lemma time_fields_range (e : Z) :
  0 <= HourFromTime e <= 23 /\ 0 <= MinFromTime e <= 59
  /\ 0 <= SecFromTime e <= 59 /\ 0 <= msFromTime e <= 999.
Proof.
  unfold HourFromTime, MinFromTime, SecFromTime, msFromTime, msPerSecond.
  repeat split; Z.div_mod_to_equations; lia.
Qed.

(** Reading what [toISOString] wrote gives the time value back. *)
Lemma dateTime_toISOString (e : Z) :
  Z.abs e <= 8640000000000000 ->
  exists iso,
    toISOString (Num e) = Normal iso
    /\ ISO.dateTime (list_ascii_of_string iso) = Some e.
Proof.
  intros He. unfold toISOString. eexists. split; [reflexivity |].
  pose proof (year_in_range e He) as Hy.
  pose proof (of_time_valid e) as [Hm Hd]. cbn in Hm, Hd.
  pose proof (DaysInMonth_range (YearFromTime e) (MonthFromTime e)) as Hdim.
  pose proof (time_fields_range e) as (Hh & Hn & Hs & Hf).
  assert (Hdt : forall ys,
    (forall rest, ISO.year (list_ascii_of_string ys ++ rest) = Some (YearFromTime e, rest)) ->
    ISO.dateTime
      (list_ascii_of_string (ys ++ "-" ++ pad 2 (MonthFromTime e + 1)
                ++ "-" ++ pad 2 (DateFromTime e)
                ++ "T" ++ pad 2 (HourFromTime e)
                ++ ":" ++ pad 2 (MinFromTime e)
                ++ ":" ++ pad 2 (SecFromTime e)
                ++ "." ++ pad 3 (msFromTime e) ++ "Z"))
    = Some e).
  { intros ys Hys. unfold ISO.dateTime.
    repeat (rewrite chars_app; cbn [list_ascii_of_string app]).
    rewrite Hys. cbn [ISO.andThen fst snd].
    rewrite sep_head. cbn [ISO.andThen fst snd].
    rewrite field_pad by (change (10 ^ Z.of_nat 2) with 100; lia).
    cbn [ISO.andThen fst snd]. rewrite sep_head. cbn [ISO.andThen fst snd].
    rewrite field_pad by (change (10 ^ Z.of_nat 2) with 100; lia).
    cbn [ISO.andThen fst snd]. rewrite sep_head. cbn [ISO.andThen fst snd].
    rewrite field_pad by (change (10 ^ Z.of_nat 2) with 100; lia).
    cbn [ISO.andThen fst snd]. rewrite sep_head. cbn [ISO.andThen fst snd].
    rewrite field_pad by (change (10 ^ Z.of_nat 2) with 100; lia).
    cbn [ISO.andThen fst snd]. rewrite sep_head. cbn [ISO.andThen fst snd].
    rewrite field_pad by (change (10 ^ Z.of_nat 2) with 100; lia).
    cbn [ISO.andThen fst snd]. rewrite sep_head. cbn [ISO.andThen fst snd].
    rewrite field_pad by (change (10 ^ Z.of_nat 3) with 1000; lia).
    cbn [ISO.andThen fst snd]. rewrite sep_head. cbn [ISO.andThen fst snd].
    replace (MonthFromTime e + 1 - 1) with (MonthFromTime e) by lia.
    replace ((1 <=? MonthFromTime e + 1) && (MonthFromTime e + 1 <=? 12)
             && (1 <=? DateFromTime e)
             && (DateFromTime e
                 <=? Civil.DaysInMonth (YearFromTime e) (MonthFromTime e))
             && (HourFromTime e <=? 23) && (MinFromTime e <=? 59)
             && (SecFromTime e <=? 59)) with true.
    - rewrite <- Day_as_MakeDay, <- time_of_day, MakeDate_Day. reflexivity.
    - symmetry. repeat (apply andb_true_iff; split); apply Z.leb_le; lia. }
  destruct ((0 <=? YearFromTime e) && (YearFromTime e <=? 9999)) eqn:E.
  - apply andb_true_iff in E. destruct E as [E1 E2].
    apply Z.leb_le in E1, E2.
    rewrite Hdt; [reflexivity |]. intros rest. apply year_plain. lia.
  - rewrite Hdt; [reflexivity |]. intros rest. apply year_expanded; [| lia].
    apply andb_false_iff in E. destruct E as [E | E]; apply Z.leb_gt in E; lia.
Qed.

(** The sample hosts read the form as the standard prescribes. *)
Lemma fixedHost_reads (off : Z) : readsUTCDateTime (fixedHost off).
Proof.
  intros s tv H _. cbn [Date_parse fixedHost]. unfold parseISO.
  rewrite H. reflexivity.
Qed.

(** X12.  The date a tile shows is the date that was computed: on every
    host that reads the full UTC date-time form as the standard
    prescribes, whatever its time zone and whatever else it reads,
    re-reading the [expiresAt] string of a result gives a valid Date
    with exactly the time value of the expiry the evaluator worked
    out. *)
Theorem expiresAt_reads_back (h : Host) (clock : Z) (p : Project)
  (r : ProjectWithDerived) (iso : string) :
  readsUTCDateTime h ->
  computeCompliance h clock p = Normal r ->
  expiresAt r = Some iso ->
  exists e,
    expiry h p = Num e
    /\ Date_of_string h iso = Num e.
Proof.
  intros Hparse H Hiso. apply computeCompliance_returns in H.
  destruct H as [[_ ->] | [_ (e & iso' & He & Hs & ->)]]; [discriminate |].
  cbn [expiresAt] in Hiso. injection Hiso as <-.
  exists e. split; [exact He |].
  assert (Hr : Z.abs e <= 8640000000000000).
  { unfold expiry, addMonths, setMonth, Date_of_Date in He.
    destruct (Date_of_string h (approvalDate p)); [| discriminate].
    cbn [getMonth num_add] in He. unfold TimeClip in He.
    match type of He with
    | (if 8640000000000000 <? Z.abs ?x then _ else _) = _ =>
        destruct (Z.ltb_spec 8640000000000000 (Z.abs x)); [discriminate |];
        injection He as <-; assumption
    end. }
  destruct (dateTime_toISOString e Hr) as (iso & Hs' & Hp).
  assert (iso = iso') by congruence. subst iso'.
  unfold Date_of_string. rewrite (Hparse iso e Hp Hr).
  unfold TimeClip. destruct (Z.ltb_spec 8640000000000000 (Z.abs e)); [lia |].
  reflexivity.
Qed.

Lemma expiresAt_reads_back_witness :
  let h := fixedHost (-8 * msPerHour) in
  let r := mkDerived p22 (Some "2025-03-15T00:00:00.000Z") expiring
             (Some (Num 2)) in
  (readsUTCDateTime h
   /\ computeCompliance h (midnight 2025 1 1) p22 = Normal r
   /\ expiresAt r = Some "2025-03-15T00:00:00.000Z")
  /\ exists e,
       expiry h p22 = Num e
       /\ Date_of_string h "2025-03-15T00:00:00.000Z" = Num e.
Proof.
  intros h r.
  assert (H0 : readsUTCDateTime h) by apply fixedHost_reads.
  assert (H1 : computeCompliance h (midnight 2025 1 1) p22 = Normal r)
    by (vm_compute; reflexivity).
  assert (H2 : expiresAt r = Some "2025-03-15T00:00:00.000Z") by reflexivity.
  split; [exact (conj H0 (conj H1 H2)) |].
  exact (expiresAt_reads_back h (midnight 2025 1 1) p22 r _ H0 H1 H2).
Defined.

Lemma toISOString_not_empty (e : Z) (iso : string) :
  toISOString (Num e) = Normal iso -> iso <> EmptyString.
Proof.
  unfold toISOString. intros H. injection H as <-.
  match goal with
  | |- (?ys ++ _)%string <> _ => destruct ys; discriminate
  end.
Qed.



End ReadBack.
